(** * HE music extractor: a shallow embedding of [HE_music_extractor.py]

    The development embeds the binary parser of the extractor
    ([HEMusicExtractor.read_music_headers] and
    [HEMusicExtractor.get_music_data]) and states the properties of the
    container format specification over it.

    Layout of the file:
    - bytes, [struct.unpack] and the Python exceptions the parser can raise;
    - the buffered binary file ([seek], [read]) and a small monad that
      threads the file cursor, collects the warnings sent to the logger and
      propagates exceptions;
    - the two parser methods, statement by statement;
    - the descriptor table by position, predicates and sample containers;
    - lemmas on the primitives, on the header reader and on the loop body;
    - the properties of the format, each with its claim number. *)

From Stdlib Require Import Strings.Byte Strings.String.
From Stdlib Require Import ZArith List Lia Bool.
From Stdlib Require DecimalString DecimalZ.
Import ListNotations.

Local Open Scope Z_scope.

(* ================================================================== *)
(** ** Bytes and tags *)

Definition bytes := list byte.

Definition bytes_eq_dec : forall a b : bytes, {a = b} + {a <> b} :=
  list_eq_dec Byte.byte_eq_dec.

(** [a == b] on [bytes] objects. *)
Definition bytes_eqb (a b : bytes) : bool :=
  if bytes_eq_dec a b then true else false.

(** The literal tags of the source: [b'SONG'], [b'SGHD'], [b'DIGI'],
    [b'SBNG'] and [b'SDAT']. *)
Definition SONG : bytes := list_byte_of_string "SONG".
Definition SGHD : bytes := list_byte_of_string "SGHD".
Definition DIGI : bytes := list_byte_of_string "DIGI".
Definition SBNG : bytes := list_byte_of_string "SBNG".
Definition SDAT : bytes := list_byte_of_string "SDAT".

Definition byte_val (b : byte) : Z := Z.of_N (Byte.to_N b).

(** Value of a byte string read as a big-endian unsigned integer. *)
Fixpoint be_val (acc : Z) (bs : bytes) : Z :=
  match bs with
  | [] => acc
  | b :: rest => be_val (acc * 256 + byte_val b) rest
  end.

(** Value of a byte string read as a little-endian unsigned integer. *)
Fixpoint le_val (bs : bytes) : Z :=
  match bs with
  | [] => 0
  | b :: rest => byte_val b + 256 * le_val rest
  end.

(** [d[p : p + n]] for [0 <= p], [0 <= n]: the bytes a [read(n)] at cursor
    [p] returns, fewer than [n] when the data ends first. *)
Definition slice (d : bytes) (p n : Z) : bytes :=
  firstn (Z.to_nat n) (skipn (Z.to_nat p) d).

(* ================================================================== *)
(** ** Exceptions and outcomes *)

(** The exceptions the parser can raise:
    - [RuntimeError]: line 45, the file is not a music container;
    - [AssertionError]: the [assert] of line 48 (assertions enabled, as the
      interpreter runs them by default);
    - [StructError]: [struct.unpack] on a buffer of the wrong length;
    - [NameError]: a name bound neither locally nor in the module;
    - [ValueError]: [BufferedReader.read] with a length below [-1];
    - [OSError]: a seek to a negative position. *)
Inductive exn : Type :=
| RuntimeError
| AssertionError
| StructError
| NameError
| ValueError
| OSError.

Inductive result (A : Type) : Type :=
| Ok (a : A)
| Raise (e : exn).
Arguments Ok {A} a.
Arguments Raise {A} e.

(** The two [logger.warning] calls of [get_music_data] (lines 87 and 109),
    with the values their messages carry.  Debug messages are not modelled. *)
Inductive warning : Type :=
| UnsupportedFormat (sound_fmt : bytes) (song_id : Z)
| PayloadHeaderCheckFailed (song_id : Z) (song_offset : Z).

(* ================================================================== *)
(** ** The binary file *)

(** A file opened with ['rb']: its content, which the parser never changes,
    and the cursor. *)
Record BinaryIO : Type := mkFile { data : bytes; pos : Z }.

Inductive whence : Type := SEEK_SET | SEEK_CUR.

(** What running a piece of the parser on a file gives: a value or an
    exception, the warnings logged on the way, and the file afterwards. *)
Record outcome (A : Type) : Type := mkOutcome {
  res : result A;
  logged : list warning;
  after : BinaryIO
}.
Arguments mkOutcome {A} res logged after.
Arguments res {A} o.
Arguments logged {A} o.
Arguments after {A} o.

Definition M (A : Type) : Type := BinaryIO -> outcome A.

Definition ret {A} (a : A) : M A :=
  fun f => mkOutcome (Ok a) [] f.

Definition raise {A} (e : exn) : M A :=
  fun f => mkOutcome (Raise e) [] f.

Definition bind {A B} (m : M A) (k : A -> M B) : M B :=
  fun f =>
    let o := m f in
    match res o with
    | Ok a =>
        let o' := k a (after o) in
        mkOutcome (res o') (logged o ++ logged o') (after o')
    | Raise e => mkOutcome (Raise e) (logged o) (after o)
    end.

Declare Scope py_scope.
Delimit Scope py_scope with py.
Notation "x <- m ;; k" := (bind m (fun x => k))
  (at level 61, m at next level, right associativity) : py_scope.
Notation "m ;;; k" := (bind m (fun _ => k))
  (at level 61, right associativity) : py_scope.
Local Open Scope py_scope.

(** [logger.warning(...)] *)
Definition warn (w : warning) : M unit :=
  fun f => mkOutcome (Ok tt) [w] f.

(** [assert c] *)
Definition py_assert (c : bool) : M unit :=
  if c then ret tt else raise AssertionError.

(** [file.seek(off, whence)].  Seeking beyond the end of the data is
    allowed; a negative target position is refused by the operating
    system. *)
Definition seek (off : Z) (w : whence) : M unit :=
  fun f =>
    let target := match w with SEEK_SET => off | SEEK_CUR => pos f + off end in
    if target <? 0 then raise OSError f
    else mkOutcome (Ok tt) [] (mkFile (data f) target).

(** [file.read(size)] on a buffered reader: at most [size] bytes from the
    cursor, everything up to the end for [size = -1], [ValueError] below. *)
Definition read (size : Z) : M bytes :=
  fun f =>
    if size <? -1 then raise ValueError f
    else
      let rest := skipn (Z.to_nat (pos f)) (data f) in
      let out := if size <? 0 then rest else firstn (Z.to_nat size) rest in
      mkOutcome (Ok out) [] (mkFile (data f) (pos f + Z.of_nat (length out))).

(** [unpack('>I', b)[0]] *)
Definition unpack_BE_I (b : bytes) : M Z :=
  if (length b =? 4)%nat then ret (be_val 0 b) else raise StructError.

(** [unpack('<I', b)[0]] *)
Definition unpack_LE_I (b : bytes) : M Z :=
  if (length b =? 4)%nat then ret (le_val b) else raise StructError.

(** [unpack('<3I', b)] *)
Definition unpack_LE_3I (b : bytes) : M (Z * Z * Z) :=
  if (length b =? 12)%nat
  then ret (le_val (firstn 4 b),
            le_val (firstn 4 (skipn 4 b)),
            le_val (firstn 4 (skipn 8 b)))
  else raise StructError.

(* ================================================================== *)
(** ** SongInfo *)

(** The dataclass of lines 10-20, with its defaults [rate = None],
    [payload = None], [sbng_code_offset = -1]. *)
Record SongInfo : Type := mkSongInfo {
  id : Z;
  offset : Z;
  size : Z;
  rate : option Z;
  payload : option bytes;
  sbng_code_offset : Z
}.

(** [SongInfo(id_, offset, size)] *)
Definition new_SongInfo (id_ offset_ size_ : Z) : SongInfo :=
  mkSongInfo id_ offset_ size_ None None (-1).

Definition set_sbng_code_offset (s : SongInfo) (v : Z) : SongInfo :=
  mkSongInfo (id s) (offset s) (size s) (rate s) (payload s) v.

Definition set_rate (s : SongInfo) (v : Z) : SongInfo :=
  mkSongInfo (id s) (offset s) (size s) (Some v) (payload s)
             (sbng_code_offset s).

Definition set_payload (s : SongInfo) (v : bytes) : SongInfo :=
  mkSongInfo (id s) (offset s) (size s) (rate s) (Some v)
             (sbng_code_offset s).

(* ================================================================== *)
(** ** HEMusicExtractor *)

(** The class attribute of line 25. *)
Definition he_version : Z := 80.

(** The body of the loop of lines 62-67, run [n] times: each round reads a
    12-byte record, appends its song to [songs] and skips the trailing
    field of the record. *)
Fixpoint read_songs (he_version : Z) (n : nat) (songs : list SongInfo)
  : M (list SongInfo) :=
  match n with
  | O => ret songs
  | S n' =>
      b <- read 12 ;;
      rec <- unpack_LE_3I b ;;
      let '(id_, offset_, size_) := rec in
      let songs := songs ++ [new_SongInfo id_ offset_ size_] in
      seek (if he_version >=? 80 then 9 else 13) SEEK_CUR ;;;
      read_songs he_version n' songs
  end.

(** [read_music_headers], lines 30-69. *)
Definition read_music_headers : M (list SongInfo) :=
  let he_version := he_version in
  seek 0 SEEK_SET ;;;
  magic <- read 4 ;;
  if negb (bytes_eqb magic SONG) then raise RuntimeError
  else
    seek 4 SEEK_CUR ;;;
    sghd <- read 4 ;;
    py_assert (bytes_eqb sghd SGHD) ;;;
    b <- read 4 ;;
    header_len <- unpack_BE_I b ;;
    let he_version := if negb (header_len =? 40) then 70 else he_version in
    b <- read 4 ;;
    total_tracks <- unpack_LE_I b ;;
    let music_start := if he_version >=? 80 then 56 else 20 in
    seek music_start SEEK_SET ;;;
    read_songs he_version (Z.to_nat total_tracks) [].

(** What the name [f] of lines 105 and 107 refers to.  [f] is no local of
    [get_music_data] and no attribute of the object: it is looked up in the
    module.  The module binds it only at line 316, inside the
    [if __name__ == '__main__'] block, to the very file object handed to
    [HEMusicExtractor]; when the module is imported the name is unbound. *)
Inductive f_binding : Type :=
| Unbound
| SameFile.

(** [f.seek(off, whence)] *)
Definition f_seek (g : f_binding) (off : Z) (w : whence) : M unit :=
  match g with
  | Unbound => raise NameError
  | SameFile => seek off w
  end.

(** [f.read(size)] *)
Definition f_read (g : f_binding) (size : Z) : M bytes :=
  match g with
  | Unbound => raise NameError
  | SameFile => read size
  end.

(** The body of the loop of lines 82-119 for one song; [continue] returns
    the song as it is at that point. *)
Definition song_body (g : f_binding) (song : SongInfo) : M SongInfo :=
  seek (offset song) SEEK_SET ;;;
  sound_fmt <- read 4 ;;
  if negb (bytes_eqb sound_fmt DIGI) then
    warn (UnsupportedFormat sound_fmt (id song)) ;;;
    ret song
  else
    seek (offset song + 22) SEEK_SET ;;;
    b <- read 4 ;;
    rate_ <- unpack_LE_I b ;;
    seek (offset song + 32) SEEK_SET ;;;
    chunk_header <- read 4 ;;
    sc <- (if bytes_eqb chunk_header SBNG then
             let song := set_sbng_code_offset song 40 in
             b <- read 4 ;;
             n <- unpack_BE_I b ;;
             let code_len := n - 8 in
             f_seek g code_len SEEK_CUR ;;;
             chunk_header <- f_read g 4 ;;
             ret (song, chunk_header)
           else ret (song, chunk_header)) ;;
    let '(song, chunk_header) := sc in
    if negb (bytes_eqb chunk_header SDAT) then
      warn (PayloadHeaderCheckFailed (id song) (offset song)) ;;;
      ret song
    else
      b <- read 4 ;;
      n <- unpack_BE_I b ;;
      let size_ := n - 8 in
      payload_ <- read size_ ;;
      let song := set_rate song rate_ in
      let song := set_payload song payload_ in
      ret song.

(** The loop of line 82 over the list of songs. *)
Fixpoint for_songs (g : f_binding) (songs : list SongInfo)
  : M (list SongInfo) :=
  match songs with
  | [] => ret []
  | song :: rest =>
      song' <- song_body g song ;;
      rest' <- for_songs g rest ;;
      ret (song' :: rest')
  end.

(** [get_music_data], lines 71-121. *)
Definition get_music_data (g : f_binding) : M (list SongInfo) :=
  songs <- read_music_headers ;;
  for_songs g songs.

(* ================================================================== *)
(** ** Fixtures: building container bytes *)

Definition byte_of_Z (z : Z) : byte :=
  match Byte.of_N (Z.to_N (z mod 256)) with
  | Some b => b
  | None => x00
  end.

(** [pack('<I', n)] and [pack('>I', n)] *)
Definition pack_LE_I (n : Z) : bytes :=
  [byte_of_Z n; byte_of_Z (n / 256); byte_of_Z (n / 65536);
   byte_of_Z (n / 16777216)].

Definition pack_BE_I (n : Z) : bytes := rev (pack_LE_I n).

Definition zeros (n : nat) : bytes := repeat x00 n.

(** A file just opened on [d]. *)
Definition open (d : bytes) : BinaryIO := mkFile d 0.

(** Lines 114-119 of the loop body on their own, as [song_body] runs them
    once the [SDAT] tag is read: [r] is the rate read at line 94. *)
Definition payload_lines (song : SongInfo) (r : Z) : M SongInfo :=
  b <- read 4 ;;
  n <- unpack_BE_I b ;;
  let size_ := n - 8 in
  payload_ <- read size_ ;;
  let song := set_rate song r in
  let song := set_payload song payload_ in
  ret song.

(* ================================================================== *)
(** ** The descriptor table, by position

    The format describes the table by positions: a start offset chosen by
    the schema, and fixed-size records of three little-endian integers
    followed by a trailing field.  These definitions follow that
    description; the properties below relate the cursor walk of
    [read_music_headers] to them. *)

(** The descriptor whose 12-byte record starts at position [p]. *)
Definition descriptor_at (d : bytes) (p : Z) : SongInfo :=
  new_SongInfo (le_val (slice d p 4))
               (le_val (slice d (p + 4) 4))
               (le_val (slice d (p + 8) 4)).

(** [n] records, the first at [p], each [stride] bytes after the one
    before; a record that the data does not hold in full cannot be
    unpacked. *)
Fixpoint table_at (d : bytes) (p stride : Z) (n : nat)
  : result (list SongInfo) :=
  match n with
  | O => Ok []
  | S n' =>
      if (length (slice d p 12) =? 12)%nat then
        match table_at d (p + stride) stride n' with
        | Ok l => Ok (descriptor_at d p :: l)
        | Raise e => Raise e
        end
      else Raise StructError
  end.

(** The key of a descriptor: the three fields read from the table. *)
Definition descriptor_key (s : SongInfo) : Z * Z * Z :=
  (id s, offset s, size s).

(* ================================================================== *)
(** ** Predicates and sample containers *)

(** [m] leaves the content of the file as it is. *)
Definition keeps_data {A} (m : M A) : Prop :=
  forall f, data (after (m f)) = data f.

(** Sequencing of two results, as two loops run one after the other. *)
Definition res_app {A} (a b : result (list A)) : result (list A) :=
  match a with
  | Ok x => match b with Ok y => Ok (x ++ y) | Raise e => Raise e end
  | Raise e => Raise e
  end.

(** A descriptor fresh from [SongInfo(id_, offset, size)]: the optional
    fields hold their defaults, and the offset, unpacked as an unsigned
    integer, is not negative. *)
Definition fresh (s : SongInfo) : Prop :=
  rate s = None /\ payload s = None /\ sbng_code_offset s = -1 /\
  0 <= offset s.

(** The 20 bytes every container starts with. *)
Definition sample_header (header_len n : Z) : bytes :=
  SONG ++ zeros 4 ++ SGHD ++ pack_BE_I header_len ++ pack_LE_I n.

Definition sample_record (id_ offset_ size_ : Z) (trailing : nat) : bytes :=
  pack_LE_I id_ ++ pack_LE_I offset_ ++ pack_LE_I size_ ++ zeros trailing.

(** The first 32 bytes of a digital track: the tag, the rate at 22. *)
Definition sample_digi (rate_ : Z) : bytes :=
  DIGI ++ zeros 18 ++ pack_LE_I rate_ ++ zeros 6.

Definition sample_sdat (declared : Z) (samples : bytes) : bytes :=
  SDAT ++ pack_BE_I declared ++ samples.

Definition sample_sbng (code : bytes) : bytes :=
  SBNG ++ pack_BE_I (8 + Z.of_nat (length code)) ++ code.

Definition hello : bytes := list_byte_of_string "hello".

(** Schema V2, two tracks: a digital one at 98 and one with the tag
    [TALK] at 143. *)
Definition container_v2 : bytes :=
  sample_header 40 2 ++ zeros 36
  ++ sample_record 7 98 45 9 ++ sample_record 8 143 40 9
  ++ sample_digi 11025 ++ sample_sdat 13 hello
  ++ list_byte_of_string "TALK" ++ zeros 36.

(** Schema V1 (declared header length 20), one digital track at 45. *)
Definition container_v1 : bytes :=
  sample_header 20 1
  ++ sample_record 3 45 45 13
  ++ sample_digi 22050 ++ sample_sdat 13 hello.

(** One digital track at 77 with a code block of two bytes before the
    payload chunk. *)
Definition container_sbng : bytes :=
  sample_header 40 1 ++ zeros 36
  ++ sample_record 7 77 55 9
  ++ sample_digi 11025 ++ sample_sbng (zeros 2) ++ sample_sdat 13 hello.

(** The same track without the code block. *)
Definition container_plain : bytes :=
  sample_header 40 1 ++ zeros 36
  ++ sample_record 7 77 45 9
  ++ sample_digi 11025 ++ sample_sdat 13 hello.

(** One digital track at 77 whose payload chunk declares 108 bytes, that
    is 100 samples, in a file that ends after three of them. *)
Definition container_cut : bytes :=
  sample_header 40 1 ++ zeros 36
  ++ sample_record 7 77 140 9
  ++ sample_digi 11025 ++ sample_sdat 108 (list_byte_of_string "abc").


(** Twelve bytes with neither magic. *)
Definition not_a_container : bytes :=
  list_byte_of_string "RIFF" ++ zeros 4 ++ list_byte_of_string "WAVE".

(** The outer magic without the sub-header magic. *)
Definition bad_subheader : bytes :=
  SONG ++ zeros 4 ++ list_byte_of_string "WAVE" ++ zeros 8.



(* ================================================================== *)
(** ** Further predicates and sample containers *)

(** [m] logs no warning. *)
Definition silent {A} (m : M A) : Prop :=
  forall f, logged (m f) = [].

(** The id of the song a warning is about. *)
Definition warning_song_id (w : warning) : Z :=
  match w with
  | UnsupportedFormat _ i => i
  | PayloadHeaderCheckFailed i _ => i
  end.

(** [song.payload is None] *)
Definition no_payload (s : SongInfo) : bool :=
  match payload s with
  | None => true
  | Some _ => false
  end.

(** An unsigned 32-bit value. *)
Definition u32 (z : Z) : Prop := 0 <= z < 4294967296.

(** [s] with another id and another declared size. *)
Definition with_id_size (s : SongInfo) (i z : Z) : SongInfo :=
  mkSongInfo i (offset s) z (rate s) (payload s) (sbng_code_offset s).

(** Both magics, then two bytes: 14 bytes in all. *)
Definition container_cut_header : bytes :=
  SONG ++ zeros 4 ++ SGHD ++ zeros 2.

(** Schema V2, two tracks declared, the second record cut after five
    bytes. *)
Definition container_cut_table : bytes :=
  sample_header 40 2 ++ zeros 36
  ++ sample_record 7 98 45 9 ++ pack_LE_I 8 ++ zeros 1.

(** Two tracks: a digital one at 98, and at 143 one that ends ten bytes
    after its [DIGI] tag, before the rate. *)
Definition container_cut_rate : bytes :=
  sample_header 40 2 ++ zeros 36
  ++ sample_record 7 98 45 9 ++ sample_record 8 143 14 9
  ++ sample_digi 11025 ++ sample_sdat 13 hello
  ++ DIGI ++ zeros 10.

(** One digital track at 77 whose payload chunk declares 7 bytes. *)
Definition container_size_7 : bytes :=
  sample_header 40 1 ++ zeros 36
  ++ sample_record 7 77 45 9
  ++ sample_digi 11025 ++ sample_sdat 7 hello.

(** One digital track at 77 whose payload chunk declares 6 bytes. *)
Definition container_size_6 : bytes :=
  sample_header 40 1 ++ zeros 36
  ++ sample_record 7 77 45 9
  ++ sample_digi 11025 ++ sample_sdat 6 hello.

(** The header and table of [container_v2] with other bytes wherever the
    header reader does not look, and no tracks. *)
Definition container_v2_noise : bytes :=
  SONG ++ repeat xff 4 ++ SGHD ++ pack_BE_I 40 ++ pack_LE_I 2
  ++ repeat xff 36
  ++ pack_LE_I 7 ++ pack_LE_I 98 ++ pack_LE_I 45 ++ repeat xff 9
  ++ pack_LE_I 8 ++ pack_LE_I 143 ++ pack_LE_I 40 ++ repeat xff 9.

(** [s] at another offset. *)
Definition moved (s : SongInfo) (o : Z) : SongInfo :=
  mkSongInfo (id s) o (size s) (rate s) (payload s) (sbng_code_offset s).

(* ================================================================== *)
(** * The command-line driver (lines 124-329)

    The driver runs the extraction and then, for every song, an [ffmpeg]
    process that receives the payload on its standard input.  A process
    run is recorded as the argument list handed to [Popen] and the bytes
    handed to [communicate]; what the process answers, the messages of
    the logger and the parsing of the command line are not modelled.

    [pathlib] and [int(str)] are taken as parameters: [joinpath] is
    [output_dir / name], [resolve_str] is [str(path.resolve())] and
    [py_int] is [int(string)], [None] standing for [ValueError]. *)

Local Open Scope string_scope.
Local Open Scope list_scope.

(** [str(n)] for an [int]. *)
Definition str_int (z : Z) : string :=
  DecimalString.NilEmpty.string_of_int (Z.to_int z).

(** [str(x)] for an [Optional[int]]. *)
Definition str_opt_int (o : option Z) : string :=
  match o with
  | Some z => str_int z
  | None => "None"
  end.

(** The truth value of an [Optional[str]]: [None] and [''] are false. *)
Definition truthy_str (o : option string) : bool :=
  match o with
  | Some s => negb (String.eqb s "")
  | None => false
  end.

(** The truth value of an [Optional[int]]: [None] and [0] are false. *)
Definition truthy_int (o : option Z) : bool :=
  match o with
  | Some z => negb (Z.eqb z 0)
  | None => false
  end.

(** A value passed as [quality_or_bitrate]: [None], an [int], a [str], or
    an object of another type. *)
Inductive quality : Type :=
| QNone
| QInt (n : Z)
| QStr (s : string)
| QOther.

(** One run of a process: [Popen(argv, stdin=PIPE)] followed by
    [communicate(stdin)]. *)
Record invocation : Type := mkInvocation {
  argv : list string;
  stdin : option bytes
}.

(** The exception of line 198. *)
Inductive driver_exn : Type := TypeError.

(** The values of the command line the loop of lines 319-329 uses. *)
Record arguments (Path : Type) : Type := mkArguments {
  output_dir : Path;
  format : string;
  filename_prefix : string;
  use_song_ids : bool;
  mp3_quality : quality;
  title_prefix : string;
  artist : option string;
  album : option string;
  year : option string;
  comment : option string
}.
Arguments output_dir {Path} a.
Arguments format {Path} a.
Arguments filename_prefix {Path} a.
Arguments use_song_ids {Path} a.
Arguments mp3_quality {Path} a.
Arguments title_prefix {Path} a.
Arguments artist {Path} a.
Arguments album {Path} a.
Arguments year {Path} a.
Arguments comment {Path} a.

Section Driver.

Variable Path : Type.
Variable joinpath : Path -> string -> Path.
Variable resolve_str : Path -> string.
Variable py_int : string -> option Z.

(** [write_pcm_to_file], lines 137-161. *)
Definition write_pcm_to_file (output_path : Path) (payload_ : option bytes)
           (samplerate : option Z) (output_options : option (list string))
  : invocation :=
  let output_options :=
    match output_options with
    | Some (o :: l) => o :: l
    | _ => []
    end in
  mkInvocation
    (["ffmpeg"; "-hide_banner"; "-loglevel"; "error";
      "-f"; "u8"; "-ar"; str_opt_int samplerate; "-i"; "pipe:"]
       ++ output_options
       ++ [resolve_str output_path])
    payload_.

(** [['-metadata', f'{key}={value}'] if value else []] *)
Definition metadata_str (key : string) (value : option string)
  : list string :=
  if truthy_str value then
    match value with
    | Some v => ["-metadata"; String.append key (String.append "=" v)]
    | None => []
    end
  else [].

(** [write_pcm_to_mp3], lines 164-213. *)
Definition write_pcm_to_mp3 (output_path : Path) (payload_ : option bytes)
           (samplerate : option Z) (quality_or_bitrate : quality)
           (title artist_ album_ year_ : option string) (track : option Z)
           (comment_ : option string)
  : invocation + driver_exn :=
  let options := ["-c:a"; "libmp3lame"] in
  match quality_or_bitrate with
  | QOther => inr TypeError
  | _ =>
      let options :=
        match quality_or_bitrate with
        | QInt n => options ++ ["-q:a"; str_int n]
        | QStr s => options ++ ["-b:a"; s]
        | _ => options
        end in
      let options := options ++ metadata_str "title" title in
      let options := options ++ metadata_str "artist" artist_ in
      let options := options ++ metadata_str "album" album_ in
      let options := options ++ metadata_str "date" year_ in
      let options :=
        options ++ (if truthy_int track then
                      match track with
                      | Some t =>
                          ["-metadata";
                           String.append "track=" (str_int t)]
                      | None => []
                      end
                    else []) in
      let options := options ++ metadata_str "comment" comment_ in
      inl (write_pcm_to_file output_path payload_ samplerate (Some options))
  end.

(** [try_int_coerce], lines 216-221. *)
Definition try_int_coerce (s : string) : quality :=
  match py_int s with
  | Some n => QInt n
  | None => QStr s
  end.

(** [args.mp3_quality]: the default 1, or the value given after
    [--mp3_quality] passed through [try_int_coerce]. *)
Definition parse_mp3_quality (given : option string) : quality :=
  match given with
  | Some s => try_int_coerce s
  | None => QInt 1
  end.

(** [song_name], line 320, as the f-strings print it. *)
Definition song_name (a : arguments Path) (i : Z) (song : SongInfo)
  : string :=
  str_int (if use_song_ids a then id song else i + 1).

(** The name of the output file, line 321. *)
Definition output_name (a : arguments Path) (i : Z) (song : SongInfo)
  : string :=
  String.append (filename_prefix a)
    (String.append (song_name a i song)
       (String.append "." (format a))).

(** The body of the loop of lines 319-329 for the song of index [i]. *)
Definition encode_song (a : arguments Path) (i : Z) (song : SongInfo)
  : invocation + driver_exn :=
  let filename := joinpath (output_dir a) (output_name a i song) in
  if String.eqb (format a) "mp3" then
    write_pcm_to_mp3 filename (payload song) (rate song) (mp3_quality a)
      (Some (String.append (title_prefix a) (song_name a i song)))
      (artist a) (album a) (year a) (Some (i + 1)) (comment a)
  else
    inl (write_pcm_to_file filename (payload song) (rate song) None).

(** The loop of lines 319-329 from index [i] on: the processes run, in
    order, and the exception that stopped the loop if one did. *)
Fixpoint encode_songs (a : arguments Path) (i : Z) (songs : list SongInfo)
  : list invocation * option driver_exn :=
  match songs with
  | [] => ([], None)
  | song :: rest =>
      match encode_song a i song with
      | inl run =>
          let '(runs, e) := encode_songs a (i + 1) rest in
          (run :: runs, e)
      | inr e => ([], Some e)
      end
  end.

(** Lines 316-329: the extraction on the file just opened, bound to the
    module's name [f], then the loop.  An exception of the extraction
    ends the program before any process is run. *)
Definition main (a : arguments Path) (game_data : bytes)
  : result (list invocation * option driver_exn) :=
  match res (get_music_data SameFile (open game_data)) with
  | Ok songs => Ok (encode_songs a 0 songs)
  | Raise e => Raise e
  end.

End Driver.

Arguments write_pcm_to_file {Path} resolve_str output_path payload_
  samplerate output_options.
Arguments write_pcm_to_mp3 {Path} resolve_str output_path payload_
  samplerate quality_or_bitrate title artist_ album_ year_ track comment_.
Arguments song_name {Path} a i song.
Arguments output_name {Path} a i song.
Arguments encode_song {Path} joinpath resolve_str a i song.
Arguments encode_songs {Path} joinpath resolve_str a i songs.
Arguments main {Path} joinpath resolve_str a game_data.

(** The ten leading arguments of every run. *)
Definition ffmpeg_head (samplerate : option Z) : list string :=
  ["ffmpeg"; "-hide_banner"; "-loglevel"; "error";
   "-f"; "u8"; "-ar"; str_opt_int samplerate; "-i"; "pipe:"].

(** Sample values of the command line: paths as strings, joined with a
    slash and resolved to themselves. *)
Definition sample_joinpath (dir name : string) : string :=
  String.append dir (String.append "/" name).

Definition sample_resolve (p : string) : string := p.

Definition sample_arguments : arguments string :=
  mkArguments string "out" "wav" "Song" false (QInt 1) "Song "
              None None None None.

(** MP3 output at a constant bitrate, an empty title prefix, an artist
    and an empty year. *)
Definition sample_arguments_mp3 : arguments string :=
  mkArguments string "out" "mp3" "Song" false (QStr "320k") ""
              (Some "Composer") None (Some "") None.

Local Close Scope string_scope.

(* ================================================================== *)
(** ** Slices *)

Lemma slice_length_le (d : bytes) (p n : Z) :
  0 <= n -> Z.of_nat (length (slice d p n)) <= n.
Proof.
  intros Hn. unfold slice. rewrite length_firstn. lia.
Qed.

Lemma slice_length (d : bytes) (p n : Z) :
  0 <= p -> 0 <= n -> p + n <= Z.of_nat (length d) ->
  Z.of_nat (length (slice d p n)) = n.
Proof.
  intros Hp Hn Hlen. unfold slice.
  rewrite length_firstn, length_skipn. lia.
Qed.

Lemma slice_full_inv (d : bytes) (p n : Z) :
  0 <= p -> 0 < n -> Z.of_nat (length (slice d p n)) = n ->
  p + n <= Z.of_nat (length d).
Proof.
  unfold slice. intros Hp Hn. rewrite length_firstn, length_skipn. lia.
Qed.

Lemma slice_short (d : bytes) (p n : Z) :
  0 <= p -> 0 <= n -> Z.of_nat (length d) <= p + n ->
  slice d p n = skipn (Z.to_nat p) d.
Proof.
  intros Hp Hn Hlen. unfold slice.
  apply firstn_all2. rewrite length_skipn. lia.
Qed.

(** A slice of a slice that starts [a] bytes in. *)
Lemma slice_slice (d : bytes) (p n a m : Z) :
  0 <= p -> 0 <= a -> 0 <= m -> a + m <= n ->
  firstn (Z.to_nat m) (skipn (Z.to_nat a) (slice d p n)) = slice d (p + a) m.
Proof.
  intros Hp Ha Hm Ham. unfold slice.
  rewrite skipn_firstn_comm, firstn_firstn, skipn_skipn.
  replace (Init.Nat.min (Z.to_nat m) (Z.to_nat n - Z.to_nat a))
    with (Z.to_nat m) by lia.
  replace (Z.to_nat a + Z.to_nat p)%nat with (Z.to_nat (p + a)) by lia.
  reflexivity.
Qed.

Lemma bytes_eqb_eq (a b : bytes) : bytes_eqb a b = true <-> a = b.
Proof.
  unfold bytes_eqb. destruct (bytes_eq_dec a b); split; congruence.
Qed.

Lemma bytes_eqb_neq (a b : bytes) : bytes_eqb a b = false <-> a <> b.
Proof.
  unfold bytes_eqb. destruct (bytes_eq_dec a b); split; congruence.
Qed.

Lemma bytes_eqb_refl (a : bytes) : bytes_eqb a a = true.
Proof. now apply bytes_eqb_eq. Qed.

(* ================================================================== *)
(** ** Running the primitives *)

Lemma outcome_eta {A} (o : outcome A) :
  mkOutcome (res o) (logged o) (after o) = o.
Proof. now destruct o. Qed.

(** A step that succeeds without logging hands the file over to the rest. *)
Lemma bind_step {A B} (m : M A) (k : A -> M B) (f f' : BinaryIO) (a : A) :
  m f = mkOutcome (Ok a) [] f' -> bind m k f = k a f'.
Proof.
  intros H. unfold bind. rewrite H. cbn. apply outcome_eta.
Qed.

Lemma bind_ret {A B} (a : A) (k : A -> M B) (f : BinaryIO) :
  bind (ret a) k f = k a f.
Proof. now apply bind_step. Qed.

Lemma bind_assoc {A B C} (m : M A) (k : A -> M B) (h : B -> M C)
      (f : BinaryIO) :
  bind (bind m k) h f = bind m (fun a => bind (k a) h) f.
Proof.
  unfold bind. destruct (m f) as [[a|e] l f1]; cbn [res logged after].
  - destruct (k a f1) as [[b|e] l1 f2]; cbn [res logged after].
    + now rewrite app_assoc.
    + reflexivity.
  - reflexivity.
Qed.

Lemma bind_raise {A B} (m : M A) (k : A -> M B) (f f' : BinaryIO)
      (e : exn) (l : list warning) :
  m f = mkOutcome (Raise e) l f' -> bind m k f = mkOutcome (Raise e) l f'.
Proof.
  intros H. unfold bind. now rewrite H.
Qed.

Lemma bind_warn {B} (w : warning) (k : unit -> M B) (f : BinaryIO) :
  bind (warn w) k f =
  mkOutcome (res (k tt f)) (w :: logged (k tt f)) (after (k tt f)).
Proof. reflexivity. Qed.

Lemma seek_set_run (d : bytes) (p off : Z) :
  0 <= off ->
  seek off SEEK_SET (mkFile d p) = mkOutcome (Ok tt) [] (mkFile d off).
Proof.
  intros H. unfold seek. cbn [pos data].
  destruct (off <? 0) eqn:E; [lia | reflexivity].
Qed.

Lemma seek_cur_run (d : bytes) (p off : Z) :
  0 <= p + off ->
  seek off SEEK_CUR (mkFile d p) = mkOutcome (Ok tt) [] (mkFile d (p + off)).
Proof.
  intros H. unfold seek. cbn [pos data].
  destruct (p + off <? 0) eqn:E; [lia | reflexivity].
Qed.

Lemma read_run (d : bytes) (p n : Z) :
  0 <= n ->
  read n (mkFile d p) =
  mkOutcome (Ok (slice d p n)) []
            (mkFile d (p + Z.of_nat (length (slice d p n)))).
Proof.
  intros H. unfold read, slice. cbn [pos data].
  destruct (n <? -1) eqn:E1; [lia|].
  destruct (n <? 0) eqn:E2; [lia|]. reflexivity.
Qed.

Lemma unpack_BE_I_run (b : bytes) (f : BinaryIO) :
  length b = 4%nat -> unpack_BE_I b f = mkOutcome (Ok (be_val 0 b)) [] f.
Proof. intros H. unfold unpack_BE_I. now rewrite H. Qed.

Lemma unpack_LE_I_run (b : bytes) (f : BinaryIO) :
  length b = 4%nat -> unpack_LE_I b f = mkOutcome (Ok (le_val b)) [] f.
Proof. intros H. unfold unpack_LE_I. now rewrite H. Qed.

Lemma unpack_BE_I_short (b : bytes) (f : BinaryIO) :
  length b <> 4%nat -> unpack_BE_I b f = mkOutcome (Raise StructError) [] f.
Proof.
  intros H. unfold unpack_BE_I.
  destruct (Nat.eqb_spec (length b) 4); [contradiction | reflexivity].
Qed.

Lemma unpack_LE_I_short (b : bytes) (f : BinaryIO) :
  length b <> 4%nat -> unpack_LE_I b f = mkOutcome (Raise StructError) [] f.
Proof.
  intros H. unfold unpack_LE_I.
  destruct (Nat.eqb_spec (length b) 4); [contradiction | reflexivity].
Qed.

Lemma unpack_LE_3I_run (d : bytes) (p : Z) (f : BinaryIO) :
  0 <= p -> length (slice d p 12) = 12%nat ->
  unpack_LE_3I (slice d p 12) f =
  mkOutcome (Ok (le_val (slice d p 4), le_val (slice d (p + 4) 4),
                 le_val (slice d (p + 8) 4))) [] f.
Proof.
  intros Hp H. unfold unpack_LE_3I. rewrite H. cbn [Nat.eqb].
  pose proof (slice_slice d p 12 0 4) as H0.
  pose proof (slice_slice d p 12 4 4) as H4.
  pose proof (slice_slice d p 12 8 4) as H8.
  change (Z.to_nat 4) with 4%nat in *. change (Z.to_nat 8) with 8%nat in *.
  change (Z.to_nat 0) with 0%nat in *. cbn [skipn] in H0.
  rewrite H0, H4, H8 by lia. now rewrite Z.add_0_r.
Qed.

Lemma unpack_LE_3I_short (b : bytes) (f : BinaryIO) :
  length b <> 12%nat ->
  unpack_LE_3I b f = mkOutcome (Raise StructError) [] f.
Proof.
  intros H. unfold unpack_LE_3I.
  destruct (Nat.eqb_spec (length b) 12); [contradiction | reflexivity].
Qed.

(* ================================================================== *)
(** ** The header reader *)

(** The loop of [read_music_headers], started with the cursor at [p], reads
    the table at [p] with stride [12 + trailing] and leaves the cursor
    after the trailing field of the last record. *)
Lemma read_songs_run (hv : Z) (d : bytes) (n : nat) :
  forall (p : Z) (acc : list SongInfo),
    0 <= p ->
    let st := 12 + (if hv >=? 80 then 9 else 13) in
    match table_at d p st n with
    | Ok l =>
        read_songs hv n acc (mkFile d p) =
        mkOutcome (Ok (acc ++ l)) [] (mkFile d (p + st * Z.of_nat n))
    | Raise e => res (read_songs hv n acc (mkFile d p)) = Raise e
    end.
Proof.
  induction n as [|n IH]; intros p acc Hp st.
  - cbn [table_at read_songs]. unfold ret.
    now rewrite app_nil_r, Z.mul_0_r, Z.add_0_r.
  - cbn [table_at read_songs].
    rewrite (bind_step _ _ _ _ _ (read_run d p 12 ltac:(lia))).
    destruct (Nat.eqb_spec (length (slice d p 12)) 12) as [E|E].
    + rewrite (bind_step _ _ _ _ _ (unpack_LE_3I_run d p _ Hp E)).
      rewrite E. change (Z.of_nat 12) with 12.
      assert (Hsk : 0 <= (p + 12) + (if hv >=? 80 then 9 else 13))
        by (destruct (hv >=? 80); lia).
      rewrite (bind_step _ _ _ _ _ (seek_cur_run d (p + 12) _ Hsk)).
      specialize (IH (p + st) (acc ++ [descriptor_at d p])
                     ltac:(subst st; destruct (hv >=? 80); lia)).
      cbv zeta in IH. fold st in IH.
      replace (p + 12 + (if hv >=? 80 then 9 else 13)) with (p + st)
        by (subst st; lia).
      fold (descriptor_at d p).
      destruct (table_at d (p + st) st n) as [l|e].
      * rewrite IH. rewrite <- app_assoc. cbn [app].
        do 2 f_equal. lia.
      * exact IH.
    + rewrite (bind_raise _ _ _ _ _ _ (unpack_LE_3I_short _ _ E)).
      reflexivity.
Qed.

Lemma read_tag_run (d : bytes) (p : Z) (t : bytes) :
  length t = 4%nat -> slice d p 4 = t ->
  read 4 (mkFile d p) = mkOutcome (Ok t) [] (mkFile d (p + 4)).
Proof.
  intros Ht H. rewrite read_run by lia. rewrite H, Ht. reflexivity.
Qed.

Lemma read_4_run (d : bytes) (p : Z) :
  length (slice d p 4) = 4%nat ->
  read 4 (mkFile d p) = mkOutcome (Ok (slice d p 4)) [] (mkFile d (p + 4)).
Proof.
  intros H. rewrite read_run by lia. now rewrite H.
Qed.

(** The outer magic check, line 44. *)
Lemma read_music_headers_not_song (d : bytes) (p : Z) :
  slice d 0 4 <> SONG ->
  res (read_music_headers (mkFile d p)) = Raise RuntimeError.
Proof.
  intros H. unfold read_music_headers.
  rewrite (bind_step _ _ _ _ _ (seek_set_run d p 0 ltac:(lia))).
  rewrite (bind_step _ _ _ _ _ (read_run d 0 4 ltac:(lia))).
  apply bytes_eqb_neq in H. rewrite H. reflexivity.
Qed.

(** The sub-header check, line 48, reached once the outer magic is right. *)
Lemma read_music_headers_not_sghd (d : bytes) (p : Z) :
  slice d 0 4 = SONG -> slice d 8 4 <> SGHD ->
  res (read_music_headers (mkFile d p)) = Raise AssertionError.
Proof.
  intros H0 H. unfold read_music_headers.
  rewrite (bind_step _ _ _ _ _ (seek_set_run d p 0 ltac:(lia))).
  rewrite (bind_step _ _ _ _ _ (read_tag_run d 0 SONG eq_refl H0)).
  rewrite bytes_eqb_refl. cbn [negb].
  rewrite (bind_step _ _ _ _ _ (seek_cur_run d (0 + 4) 4 ltac:(lia))).
  rewrite (bind_step _ _ _ _ _ (read_run d (0 + 4 + 4) 4 ltac:(lia))).
  change (0 + 4 + 4) with 8.
  apply bytes_eqb_neq in H. rewrite H. reflexivity.
Qed.

(** With both magics and the two header fields in place, the reader reads
    the table of the schema chosen by the header-block length. *)
Lemma read_music_headers_run (d : bytes) (p : Z) :
  slice d 0 4 = SONG -> slice d 8 4 = SGHD ->
  length (slice d 12 4) = 4%nat -> length (slice d 16 4) = 4%nat ->
  let header_len := be_val 0 (slice d 12 4) in
  let n := Z.to_nat (le_val (slice d 16 4)) in
  let start := if header_len =? 40 then 56 else 20 in
  let st := if header_len =? 40 then 21 else 25 in
  match table_at d start st n with
  | Ok l =>
      read_music_headers (mkFile d p) =
      mkOutcome (Ok l) [] (mkFile d (start + st * Z.of_nat n))
  | Raise e => res (read_music_headers (mkFile d p)) = Raise e
  end.
Proof.
  intros H0 H8 H12 H16 header_len n start st.
  unfold read_music_headers.
  rewrite (bind_step _ _ _ _ _ (seek_set_run d p 0 ltac:(lia))).
  rewrite (bind_step _ _ _ _ _ (read_tag_run d 0 SONG eq_refl H0)).
  rewrite bytes_eqb_refl. cbn [negb].
  rewrite (bind_step _ _ _ _ _ (seek_cur_run d (0 + 4) 4 ltac:(lia))).
  change (0 + 4 + 4) with 8.
  rewrite (bind_step _ _ _ _ _ (read_tag_run d 8 SGHD eq_refl H8)).
  rewrite bytes_eqb_refl. unfold py_assert.
  rewrite bind_ret.
  change (8 + 4) with 12.
  rewrite (bind_step _ _ _ _ _ (read_4_run d 12 H12)).
  rewrite (bind_step _ _ _ _ _ (unpack_BE_I_run _ _ H12)).
  change (12 + 4) with 16.
  rewrite (bind_step _ _ _ _ _ (read_4_run d 16 H16)).
  rewrite (bind_step _ _ _ _ _ (unpack_LE_I_run _ _ H16)).
  fold header_len. fold n.
  pose proof (read_songs_run (if negb (header_len =? 40) then 70 else he_version)
                d n) as R.
  subst start st. unfold he_version in *.
  destruct (header_len =? 40); cbn [negb] in *.
  - change (80 >=? 80) with true in *. cbv iota in *.
    rewrite (bind_step _ _ _ _ _ (seek_set_run d _ 56 ltac:(lia))).
    specialize (R 56 [] ltac:(lia)). cbv zeta in R.
    change (12 + 9) with 21 in R. exact R.
  - change (70 >=? 80) with false in *. cbv iota in *.
    rewrite (bind_step _ _ _ _ _ (seek_set_run d _ 20 ltac:(lia))).
    specialize (R 20 [] ltac:(lia)). cbv zeta in R.
    change (12 + 13) with 25 in R. exact R.
Qed.

(* ================================================================== *)
(** ** The loop body of the extractor *)

Ltac step H := rewrite (bind_step _ _ _ _ _ H).

Lemma be_val_nonneg (bs : bytes) : forall acc, 0 <= acc -> 0 <= be_val acc bs.
Proof.
  induction bs as [|b bs IH]; intros acc Hacc; cbn [be_val]; [assumption|].
  apply IH. unfold byte_val. lia.
Qed.

Lemma le_val_nonneg (bs : bytes) : 0 <= le_val bs.
Proof.
  induction bs as [|b bs IH]; cbn [le_val]; unfold byte_val; lia.
Qed.

Lemma tag_length (d : bytes) (p : Z) (t : bytes) :
  slice d p 4 = t -> length t = 4%nat -> length (slice d p 4) = 4%nat.
Proof. intros H Ht. now rewrite H. Qed.

Lemma bind_Ok_inv {A B} (m : M A) (k : A -> M B) (f : BinaryIO) (b : B) :
  res (bind m k f) = Ok b ->
  exists a, res (m f) = Ok a /\ res (k a (after (m f))) = Ok b.
Proof.
  unfold bind. destruct (res (m f)) as [a|e]; cbn [res]; intros H.
  - now exists a.
  - discriminate.
Qed.

Lemma ret_Ok_inv {A} (a b : A) (f : BinaryIO) :
  res (ret a f) = Ok b -> a = b.
Proof. cbn. congruence. Qed.

(** Lines 114-119 for a payload chunk whose tag sits at [q]. *)
Lemma payload_run (d : bytes) (r : Z) (s : SongInfo) (q : Z) :
  0 <= q ->
  length (slice d (q + 4) 4) = 4%nat ->
  8 <= be_val 0 (slice d (q + 4) 4) ->
  let size_ := be_val 0 (slice d (q + 4) 4) - 8 in
  let payload_ := slice d (q + 8) size_ in
  payload_lines s r (mkFile d (q + 4)) =
  mkOutcome (Ok (set_payload (set_rate s r) payload_)) []
            (mkFile d (q + 8 + Z.of_nat (length payload_))).
Proof.
  intros Hq Hlen Hsz size_ payload_. unfold payload_lines.
  step (read_4_run d (q + 4) Hlen).
  step (unpack_BE_I_run _ (mkFile d (q + 4 + 4)) Hlen).
  replace (q + 4 + 4) with (q + 8) by lia.
  step (read_run d (q + 8) size_ ltac:(subst size_; lia)).
  reflexivity.
Qed.

(** Lines 114-119 only ever set [rate] and [payload]. *)
Lemma payload_inv (s s' : SongInfo) (r : Z) (f : BinaryIO) :
  res (payload_lines s r f) = Ok s' ->
  exists pl, s' = set_payload (set_rate s r) pl.
Proof.
  intros H. unfold payload_lines in H.
  apply bind_Ok_inv in H as (b & _ & H).
  apply bind_Ok_inv in H as (n & _ & H).
  apply bind_Ok_inv in H as (pl & _ & H).
  apply ret_Ok_inv in H. now exists pl.
Qed.

Section SongBody.

Variable g : f_binding.
Variable song : SongInfo.
Variable d : bytes.
Variable p : Z.

Let off := offset song.

Hypothesis Hoff : 0 <= off.

(** Line 86: a first tag other than [DIGI] ends the round with the song
    untouched and the warning of line 87. *)
Lemma song_body_unsupported :
  slice d off 4 <> DIGI ->
  song_body g song (mkFile d p) =
  mkOutcome (Ok song) [UnsupportedFormat (slice d off 4) (id song)]
            (mkFile d (off + Z.of_nat (length (slice d off 4)))).
Proof.
  intros H. unfold song_body. fold off.
  step (seek_set_run d p off Hoff).
  step (read_run d off 4 ltac:(lia)).
  apply bytes_eqb_neq in H. rewrite H. cbn [negb].
  rewrite bind_warn. reflexivity.
Qed.

Hypothesis Hdigi : slice d off 4 = DIGI.

(** Line 94: the rate field must hold four bytes. *)
Lemma song_body_rate_short :
  length (slice d (off + 22) 4) <> 4%nat ->
  res (song_body g song (mkFile d p)) = Raise StructError.
Proof.
  intros H. unfold song_body. fold off.
  step (seek_set_run d p off Hoff).
  step (read_tag_run d off DIGI eq_refl Hdigi).
  rewrite bytes_eqb_refl. cbn [negb].
  step (seek_set_run d (off + 4) (off + 22) ltac:(lia)).
  step (read_run d (off + 22) 4 ltac:(lia)).
  rewrite (bind_raise _ _ _ _ _ _ (unpack_LE_I_short _ _ H)).
  reflexivity.
Qed.

Hypothesis Hrate : length (slice d (off + 22) 4) = 4%nat.

Let rate_ := le_val (slice d (off + 22) 4).
Let tag32 := slice d (off + 32) 4.

(** Lines 84-98 executed: what is left of the round runs with the cursor
    after the tag read at [off + 32]. *)
Lemma song_body_prefix :
  song_body g song (mkFile d p) =
  (sc <- (if bytes_eqb tag32 SBNG then
            let song := set_sbng_code_offset song 40 in
            b <- read 4 ;;
            n <- unpack_BE_I b ;;
            let code_len := n - 8 in
            f_seek g code_len SEEK_CUR ;;;
            chunk_header <- f_read g 4 ;;
            ret (song, chunk_header)
          else ret (song, tag32)) ;;
   let '(song, chunk_header) := sc in
   if negb (bytes_eqb chunk_header SDAT) then
     warn (PayloadHeaderCheckFailed (id song) (offset song)) ;;;
     ret song
   else
     b <- read 4 ;;
     n <- unpack_BE_I b ;;
     let size_ := n - 8 in
     payload_ <- read size_ ;;
     let song := set_rate song rate_ in
     let song := set_payload song payload_ in
     ret song)
    (mkFile d (off + 32 + Z.of_nat (length tag32))).
Proof.
  unfold song_body. fold off.
  step (seek_set_run d p off Hoff).
  step (read_tag_run d off DIGI eq_refl Hdigi).
  rewrite bytes_eqb_refl. cbn [negb].
  step (seek_set_run d (off + 4) (off + 22) ltac:(lia)).
  step (read_4_run d (off + 22) Hrate).
  step (unpack_LE_I_run _ (mkFile d (off + 22 + 4)) Hrate).
  step (seek_set_run d (off + 22 + 4) (off + 32) ltac:(lia)).
  step (read_run d (off + 32) 4 ltac:(lia)).
  reflexivity.
Qed.

(** Lines 108-113: neither [SBNG] nor [SDAT] at [off + 32]. *)
Lemma song_body_missing :
  tag32 <> SBNG -> tag32 <> SDAT ->
  song_body g song (mkFile d p) =
  mkOutcome (Ok song) [PayloadHeaderCheckFailed (id song) off]
            (mkFile d (off + 32 + Z.of_nat (length tag32))).
Proof.
  intros H1 H2. rewrite song_body_prefix.
  apply bytes_eqb_neq in H1, H2. rewrite H1.
  rewrite bind_ret.
  rewrite H2. cbn [negb]. rewrite bind_warn. reflexivity.
Qed.

(** With [SDAT] at [off + 32] the round goes on to lines 114-119. *)
Lemma song_body_sdat_payload :
  tag32 = SDAT ->
  song_body g song (mkFile d p) =
  payload_lines song rate_ (mkFile d (off + 36)).
Proof.
  intros H. rewrite song_body_prefix.
  rewrite H. change (bytes_eqb SDAT SBNG) with false. cbv iota.
  rewrite bind_ret.
  rewrite bytes_eqb_refl. cbn [negb].
  change (Z.of_nat (length SDAT)) with 4.
  replace (off + 32 + 4) with (off + 36) by lia.
  reflexivity.
Qed.

(** Lines 114-119 with [SDAT] at [off + 32]: the payload is what the data
    holds of the declared bytes. *)
Lemma song_body_sdat :
  tag32 = SDAT ->
  length (slice d (off + 36) 4) = 4%nat ->
  8 <= be_val 0 (slice d (off + 36) 4) ->
  let size_ := be_val 0 (slice d (off + 36) 4) - 8 in
  let payload_ := slice d (off + 40) size_ in
  song_body g song (mkFile d p) =
  mkOutcome (Ok (set_payload (set_rate song rate_) payload_)) []
            (mkFile d (off + 40 + Z.of_nat (length payload_))).
Proof.
  intros H Hlen Hsz size_ payload_. rewrite (song_body_sdat_payload H).
  pose proof (payload_run d rate_ song (off + 32) ltac:(lia)) as P.
  replace (off + 32 + 4) with (off + 36) in * by lia.
  replace (off + 32 + 8) with (off + 40) in * by lia.
  exact (P Hlen Hsz).
Qed.

End SongBody.

Lemma song_body_neg_offset (g : f_binding) (song : SongInfo) (f : BinaryIO) :
  offset song < 0 -> res (song_body g song f) = Raise OSError.
Proof.
  intros H. unfold song_body.
  erewrite bind_raise; [reflexivity|].
  unfold seek. destruct (offset song <? 0) eqn:E; [reflexivity | lia].
Qed.

Section SongBodyCode.

Variable g : f_binding.
Variable song : SongInfo.
Variable d : bytes.
Variable p : Z.

Let off := offset song.

Hypothesis Hoff : 0 <= off.
Hypothesis Hdigi : slice d off 4 = DIGI.
Hypothesis Hrate : length (slice d (off + 22) 4) = 4%nat.
Hypothesis Hsbng : slice d (off + 32) 4 = SBNG.

Let rate_ := le_val (slice d (off + 22) 4).

(** Line 104: the length field of the code block must hold four bytes. *)
Lemma song_body_code_short :
  length (slice d (off + 36) 4) <> 4%nat ->
  res (song_body g song (mkFile d p)) = Raise StructError.
Proof.
  intros H. rewrite song_body_prefix by assumption. fold off.
  rewrite Hsbng, bytes_eqb_refl.
  change (Z.of_nat (length SBNG)) with 4.
  replace (off + 32 + 4) with (off + 36) by lia.
  cbv zeta. rewrite bind_assoc.
  step (read_run d (off + 36) 4 ltac:(lia)).
  rewrite bind_assoc.
  rewrite (bind_raise _ _ _ _ _ _ (unpack_BE_I_short _ _ H)).
  reflexivity.
Qed.

Hypothesis Hlen : length (slice d (off + 36) 4) = 4%nat.

Let L := be_val 0 (slice d (off + 36) 4).

(** The rest of the round once the length field of the code block is
    read: lines 105-119, with the cursor after that field. *)
Lemma song_body_code_prefix :
  song_body g song (mkFile d p) =
  (sc <- (f_seek g (L - 8) SEEK_CUR ;;;
          chunk_header <- f_read g 4 ;;
          ret (set_sbng_code_offset song 40, chunk_header)) ;;
   let '(song, chunk_header) := sc in
   if negb (bytes_eqb chunk_header SDAT) then
     warn (PayloadHeaderCheckFailed (id song) (offset song)) ;;;
     ret song
   else
     b <- read 4 ;;
     n <- unpack_BE_I b ;;
     let size_ := n - 8 in
     payload_ <- read size_ ;;
     let song := set_rate song rate_ in
     let song := set_payload song payload_ in
     ret song)
    (mkFile d (off + 40)).
Proof.
  rewrite song_body_prefix by assumption. fold off.
  rewrite Hsbng, bytes_eqb_refl.
  change (Z.of_nat (length SBNG)) with 4.
  replace (off + 32 + 4) with (off + 36) by lia.
  cbv zeta. rewrite bind_assoc.
  step (read_4_run d (off + 36) Hlen).
  rewrite bind_assoc.
  step (unpack_BE_I_run _ (mkFile d (off + 36 + 4)) Hlen).
  replace (off + 36 + 4) with (off + 40) by lia.
  reflexivity.
Qed.

(** Line 105 when the module is imported: the name [f] is unbound. *)
Lemma song_body_code_unbound :
  g = Unbound ->
  song_body g song (mkFile d p) =
  mkOutcome (Raise NameError) [] (mkFile d (off + 40)).
Proof.
  intros Hg. rewrite song_body_code_prefix. rewrite Hg.
  rewrite bind_assoc.
  now rewrite (bind_raise _ _ _ _ _ _ (eq_refl : f_seek Unbound _ _ _ = _)).
Qed.

Hypothesis Hg : g = SameFile.

Let tag2 := slice d (off + 32 + L) 4.

Lemma code_len_nonneg : 0 <= L.
Proof. apply be_val_nonneg. lia. Qed.

(** Lines 105-113 when [f] is the file itself and no [SDAT] follows the
    code block. *)
Lemma song_body_code_missing :
  tag2 <> SDAT ->
  song_body g song (mkFile d p) =
  mkOutcome (Ok (set_sbng_code_offset song 40))
            [PayloadHeaderCheckFailed (id song) off]
            (mkFile d (off + 32 + L + Z.of_nat (length tag2))).
Proof.
  intros H. pose proof code_len_nonneg as HL.
  rewrite song_body_code_prefix. rewrite Hg. cbn [f_seek f_read].
  rewrite bind_assoc.
  step (seek_cur_run d (off + 40) (L - 8) ltac:(lia)).
  replace (off + 40 + (L - 8)) with (off + 32 + L) by lia.
  rewrite bind_assoc.
  step (read_run d (off + 32 + L) 4 ltac:(lia)).
  rewrite bind_ret. fold tag2.
  apply bytes_eqb_neq in H. rewrite H. cbn [negb].
  rewrite bind_warn. reflexivity.
Qed.

(** When [f] is the file itself and [SDAT] follows the code block, the
    round goes on to lines 114-119 with the offset field set. *)
Lemma song_body_code_payload :
  tag2 = SDAT ->
  song_body g song (mkFile d p) =
  payload_lines (set_sbng_code_offset song 40) rate_
                (mkFile d (off + 36 + L)).
Proof.
  intros H. pose proof code_len_nonneg as HL.
  rewrite song_body_code_prefix. rewrite Hg. cbn [f_seek f_read].
  rewrite bind_assoc.
  step (seek_cur_run d (off + 40) (L - 8) ltac:(lia)).
  replace (off + 40 + (L - 8)) with (off + 32 + L) by lia.
  rewrite bind_assoc.
  step (read_run d (off + 32 + L) 4 ltac:(lia)).
  rewrite bind_ret. fold tag2. rewrite H.
  rewrite bytes_eqb_refl. cbn [negb].
  change (Z.of_nat (length SDAT)) with 4.
  replace (off + 32 + L + 4) with (off + 36 + L) by lia.
  reflexivity.
Qed.

(** Lines 105-119 when [f] is the file itself and [SDAT] follows the code
    block. *)
Lemma song_body_code_sdat :
  tag2 = SDAT ->
  length (slice d (off + 36 + L) 4) = 4%nat ->
  8 <= be_val 0 (slice d (off + 36 + L) 4) ->
  let size_ := be_val 0 (slice d (off + 36 + L) 4) - 8 in
  let payload_ := slice d (off + 40 + L) size_ in
  song_body g song (mkFile d p) =
  mkOutcome (Ok (set_payload (set_rate (set_sbng_code_offset song 40) rate_)
                             payload_)) []
            (mkFile d (off + 40 + L + Z.of_nat (length payload_))).
Proof.
  intros H Hl Hsz size_ payload_. pose proof code_len_nonneg as HL.
  rewrite (song_body_code_payload H).
  pose proof (payload_run d rate_ (set_sbng_code_offset song 40)
                          (off + 32 + L) ltac:(lia)) as P.
  replace (off + 32 + L + 4) with (off + 36 + L) in * by lia.
  replace (off + 32 + L + 8) with (off + 40 + L) in * by lia.
  exact (P Hl Hsz).
Qed.

End SongBodyCode.

(** What a round that returns has done to its song: the three descriptor
    fields are as before, and [sbng_code_offset] is as before unless the
    tags [DIGI] and [SBNG] sit at the offsets 0 and 32 of the track, in
    which case it is 40 and [f] was the file. *)
Lemma song_body_inv (g : f_binding) (song s' : SongInfo) (d : bytes) (p : Z) :
  res (song_body g song (mkFile d p)) = Ok s' ->
  descriptor_key s' = descriptor_key song /\
  ((sbng_code_offset s' = sbng_code_offset song /\
    ~ (slice d (offset song) 4 = DIGI /\
       slice d (offset song + 32) 4 = SBNG)) \/
   (sbng_code_offset s' = 40 /\ g = SameFile /\
    slice d (offset song) 4 = DIGI /\
    slice d (offset song + 32) 4 = SBNG)).
Proof.
  intros H.
  destruct (Z.lt_ge_cases (offset song) 0) as [Hneg|Hoff].
  { rewrite song_body_neg_offset in H by assumption. discriminate. }
  destruct (bytes_eq_dec (slice d (offset song) 4) DIGI) as [Hdigi|Hdigi].
  2:{ rewrite (song_body_unsupported g song d p) in H by assumption.
      cbn [res] in H. injection H as <-. split; [reflexivity|].
      left. split; [reflexivity|]. intros [? _]. contradiction. }
  destruct (Nat.eq_dec (length (slice d (offset song + 22) 4)) 4)
    as [Hrate|Hrate].
  2:{ rewrite (song_body_rate_short g song d p) in H by assumption.
      discriminate. }
  destruct (bytes_eq_dec (slice d (offset song + 32) 4) SBNG) as [Hsbng|Hsbng].
  - destruct (Nat.eq_dec (length (slice d (offset song + 36) 4)) 4)
      as [Hlen|Hlen].
    2:{ rewrite (song_body_code_short g song d p) in H by assumption.
        discriminate. }
    destruct g.
    { rewrite (song_body_code_unbound Unbound song d p) in H
        by (assumption || reflexivity).
      discriminate. }
    set (L := be_val 0 (slice d (offset song + 36) 4)) in *.
    destruct (bytes_eq_dec (slice d (offset song + 32 + L) 4) SDAT)
      as [Hsdat|Hsdat].
    + rewrite (song_body_code_payload SameFile song d p) in H
        by (assumption || reflexivity).
      apply payload_inv in H as (pl & ->).
      split; [reflexivity|]. right. now repeat split.
    + rewrite (song_body_code_missing SameFile song d p) in H
        by (assumption || reflexivity).
      cbn [res] in H. injection H as <-.
      split; [reflexivity|]. right. now repeat split.
  - assert (Hno : ~ (slice d (offset song) 4 = DIGI /\
                     slice d (offset song + 32) 4 = SBNG))
      by (intros [_ ?]; contradiction).
    destruct (bytes_eq_dec (slice d (offset song + 32) 4) SDAT)
      as [Hsdat|Hsdat].
    + rewrite (song_body_sdat_payload g song d p) in H by assumption.
      apply payload_inv in H as (pl & ->).
      split; [reflexivity|]. left. now split.
    + rewrite (song_body_missing g song d p) in H by assumption.
      cbn [res] in H. injection H as <-.
      split; [reflexivity|]. left. now split.
Qed.

(* ================================================================== *)
(** ** The cursor and the data *)

Lemma keeps_data_ret {A} (a : A) : keeps_data (ret a).
Proof. intros f. reflexivity. Qed.

Lemma keeps_data_raise {A} (e : exn) : keeps_data (@raise A e).
Proof. intros f. reflexivity. Qed.

Lemma keeps_data_warn (w : warning) : keeps_data (warn w).
Proof. intros f. reflexivity. Qed.

Lemma keeps_data_seek (off : Z) (w : whence) : keeps_data (seek off w).
Proof.
  intros f. unfold seek.
  destruct (_ <? 0); reflexivity.
Qed.

Lemma keeps_data_read (n : Z) : keeps_data (read n).
Proof.
  intros f. unfold read. destruct (n <? -1); reflexivity.
Qed.

Lemma keeps_data_bind {A B} (m : M A) (k : A -> M B) :
  keeps_data m -> (forall a, keeps_data (k a)) -> keeps_data (bind m k).
Proof.
  intros Hm Hk f. unfold bind.
  destruct (res (m f)) as [a|e]; cbn [after].
  - rewrite Hk. apply Hm.
  - apply Hm.
Qed.

Lemma keeps_data_unpack_BE_I (b : bytes) : keeps_data (unpack_BE_I b).
Proof. intros f. unfold unpack_BE_I. destruct (_ =? _)%nat; reflexivity. Qed.

Lemma keeps_data_unpack_LE_I (b : bytes) : keeps_data (unpack_LE_I b).
Proof. intros f. unfold unpack_LE_I. destruct (_ =? _)%nat; reflexivity. Qed.

Lemma keeps_data_unpack_LE_3I (b : bytes) : keeps_data (unpack_LE_3I b).
Proof. intros f. unfold unpack_LE_3I. destruct (_ =? _)%nat; reflexivity. Qed.

Lemma keeps_data_py_assert (c : bool) : keeps_data (py_assert c).
Proof. intros f. destruct c; reflexivity. Qed.

Lemma keeps_data_f_seek (g : f_binding) (off : Z) (w : whence) :
  keeps_data (f_seek g off w).
Proof. destruct g; [apply keeps_data_raise | apply keeps_data_seek]. Qed.

Lemma keeps_data_f_read (g : f_binding) (n : Z) : keeps_data (f_read g n).
Proof. destruct g; [apply keeps_data_raise | apply keeps_data_read]. Qed.

Create HintDb keeps.
#[local] Hint Resolve keeps_data_ret keeps_data_raise keeps_data_warn
  keeps_data_seek keeps_data_read keeps_data_unpack_BE_I
  keeps_data_unpack_LE_I keeps_data_unpack_LE_3I keeps_data_py_assert
  keeps_data_f_seek keeps_data_f_read : keeps.

Ltac keeps :=
  repeat first
    [ solve [auto with keeps]
    | apply keeps_data_bind
    | match goal with
      | |- forall _, _ => intro
      | |- keeps_data (if ?c then _ else _) => destruct c
      | |- keeps_data (let '(_, _) := ?x in _) => destruct x
      end ].

Lemma keeps_data_read_songs (hv : Z) (n : nat) :
  forall songs, keeps_data (read_songs hv n songs).
Proof.
  induction n as [|n IH]; intros songs; cbn [read_songs]; keeps.
Qed.

#[local] Hint Resolve keeps_data_read_songs : keeps.

Lemma keeps_data_read_music_headers : keeps_data read_music_headers.
Proof. unfold read_music_headers. keeps. Qed.

Lemma keeps_data_song_body (g : f_binding) (song : SongInfo) :
  keeps_data (song_body g song).
Proof. unfold song_body. keeps. Qed.

#[local] Hint Resolve keeps_data_read_music_headers keeps_data_song_body
  : keeps.

Lemma keeps_data_for_songs (g : f_binding) (songs : list SongInfo) :
  keeps_data (for_songs g songs).
Proof.
  induction songs as [|s rest IH]; cbn [for_songs]; keeps.
Qed.

#[local] Hint Resolve keeps_data_for_songs : keeps.

Lemma keeps_data_get_music_data (g : f_binding) :
  keeps_data (get_music_data g).
Proof. unfold get_music_data. keeps. Qed.

(** A piece that starts with an absolute seek does not depend on where the
    cursor was. *)
Lemma seek_set_first {A} (off : Z) (k : unit -> M A) (d : bytes) (p q : Z) :
  0 <= off ->
  bind (seek off SEEK_SET) k (mkFile d p) =
  bind (seek off SEEK_SET) k (mkFile d q).
Proof.
  intros H. now rewrite !(bind_step _ _ _ _ _ (seek_set_run d _ off H)).
Qed.

Lemma read_music_headers_any_cursor (d : bytes) (p q : Z) :
  read_music_headers (mkFile d p) = read_music_headers (mkFile d q).
Proof. unfold read_music_headers. apply seek_set_first. lia. Qed.

Lemma song_body_any_cursor (g : f_binding) (song : SongInfo)
      (d : bytes) (p q : Z) :
  res (song_body g song (mkFile d p)) = res (song_body g song (mkFile d q)).
Proof.
  destruct (Z.lt_ge_cases (offset song) 0) as [H|H].
  - now rewrite !song_body_neg_offset.
  - unfold song_body. now rewrite (seek_set_first _ _ d p q H).
Qed.

Lemma get_music_data_any_cursor (g : f_binding) (d : bytes) (p q : Z) :
  get_music_data g (mkFile d p) = get_music_data g (mkFile d q).
Proof.
  unfold get_music_data, bind.
  now rewrite (read_music_headers_any_cursor d p q).
Qed.

Lemma file_eta (f : BinaryIO) : f = mkFile (data f) (pos f).
Proof. now destruct f. Qed.

(** The file after a run is the same content under some cursor. *)
Lemma after_file {A} (m : M A) (f : BinaryIO) :
  keeps_data m -> after (m f) = mkFile (data f) (pos (after (m f))).
Proof.
  intros H. rewrite <- (H f). apply file_eta.
Qed.

Lemma res_bind {A B} (m : M A) (k : A -> M B) (f : BinaryIO) :
  res (bind m k f) =
  match res (m f) with
  | Ok a => res (k a (after (m f)))
  | Raise e => Raise e
  end.
Proof. unfold bind. destruct (res (m f)); reflexivity. Qed.

(* ================================================================== *)
(** ** The loop over the songs *)

Lemma for_songs_any_cursor (g : f_binding) (d : bytes) (l : list SongInfo) :
  forall p q : Z,
    res (for_songs g l (mkFile d p)) = res (for_songs g l (mkFile d q)).
Proof.
  induction l as [|s l IH]; intros p q; [reflexivity|].
  cbn [for_songs]. rewrite !res_bind.
  rewrite (song_body_any_cursor g s d p q).
  destruct (res (song_body g s (mkFile d q))) as [s'|e]; [|reflexivity].
  rewrite !res_bind.
  rewrite (after_file _ (mkFile d p) (keeps_data_song_body g s)).
  rewrite (after_file _ (mkFile d q) (keeps_data_song_body g s)).
  cbn [data].
  now rewrite (IH _ (pos (after (song_body g s (mkFile d q))))).
Qed.

Lemma for_songs_cons (g : f_binding) (s : SongInfo) (l : list SongInfo)
      (d : bytes) (p q : Z) :
  res (for_songs g (s :: l) (mkFile d p)) =
  res_app (match res (song_body g s (mkFile d p)) with
           | Ok s' => Ok [s']
           | Raise e => Raise e
           end)
          (res (for_songs g l (mkFile d q))).
Proof.
  cbn [for_songs]. rewrite res_bind.
  destruct (res (song_body g s (mkFile d p))) as [s'|e]; [|reflexivity].
  rewrite res_bind.
  rewrite (after_file _ _ (keeps_data_song_body g s)). cbn [data].
  rewrite (for_songs_any_cursor g d l _ q).
  destruct (res (for_songs g l (mkFile d q))); reflexivity.
Qed.

Lemma for_songs_nil (g : f_binding) (f : BinaryIO) :
  res (for_songs g [] f) = Ok [].
Proof. reflexivity. Qed.

Lemma res_app_assoc {A} (a b c : result (list A)) :
  res_app (res_app a b) c = res_app a (res_app b c).
Proof.
  destruct a as [x|]; [|reflexivity].
  destruct b as [y|]; [|reflexivity].
  destruct c as [z|]; [|reflexivity].
  cbn. now rewrite app_assoc.
Qed.

(** Running the loop over [l1 ++ l2] is running it over [l1], then over
    [l2]: no round depends on the rounds before it. *)
Lemma for_songs_app (g : f_binding) (l1 l2 : list SongInfo)
      (d : bytes) (p q : Z) :
  res (for_songs g (l1 ++ l2) (mkFile d p)) =
  res_app (res (for_songs g l1 (mkFile d p)))
          (res (for_songs g l2 (mkFile d q))).
Proof.
  revert p. induction l1 as [|s l1 IH]; intros p.
  - cbn [app for_songs ret res res_app].
    rewrite (for_songs_any_cursor g d l2 p q).
    destruct (res (for_songs g l2 (mkFile d q))); reflexivity.
  - cbn [app]. rewrite (for_songs_cons g s (l1 ++ l2) d p p).
    rewrite (for_songs_cons g s l1 d p p).
    rewrite IH. now rewrite res_app_assoc.
Qed.

(** What the loop returns comes round by round from [song_body]. *)
Lemma for_songs_inv (g : f_binding) (d : bytes) (l : list SongInfo) :
  forall (p : Z) (out : list SongInfo),
    res (for_songs g l (mkFile d p)) = Ok out ->
    Forall2 (fun s s' => res (song_body g s (mkFile d 0)) = Ok s') l out.
Proof.
  induction l as [|s l IH]; intros p out H.
  - cbn in H. injection H as <-. constructor.
  - rewrite (for_songs_cons g s l d p 0) in H.
    rewrite (song_body_any_cursor g s d p 0) in H.
    destruct (res (song_body g s (mkFile d 0))) as [s'|e] eqn:E;
      cbn [res_app] in H; [|discriminate].
    destruct (res (for_songs g l (mkFile d 0))) as [r|e] eqn:E2;
      [|discriminate].
    injection H as <-. cbn [app]. constructor; [assumption|].
    now apply (IH 0).
Qed.

(* ================================================================== *)
(** ** Descriptors as the header reader builds them *)

Lemma unpack_LE_3I_inv (b : bytes) (f : BinaryIO) (i o z : Z) :
  res (unpack_LE_3I b f) = Ok (i, o, z) -> 0 <= o.
Proof.
  unfold unpack_LE_3I. destruct (_ =? _)%nat; cbn [res ret raise]; intros H.
  - injection H as _ <- _. apply le_val_nonneg.
  - discriminate.
Qed.

Lemma read_songs_fresh (hv : Z) (n : nat) :
  forall (acc out : list SongInfo) (f : BinaryIO),
    res (read_songs hv n acc f) = Ok out ->
    Forall fresh acc -> Forall fresh out.
Proof.
  induction n as [|n IH]; intros acc out f H Hacc.
  - cbn in H. now injection H as <-.
  - cbn [read_songs] in H.
    apply bind_Ok_inv in H as (b & _ & H).
    apply bind_Ok_inv in H as ([[i o] z] & Hu & H).
    apply bind_Ok_inv in H as (u & _ & H).
    apply IH in H; [assumption|].
    apply Forall_app. split; [assumption|].
    constructor; [|constructor].
    unfold fresh, new_SongInfo. cbn.
    repeat split. now apply unpack_LE_3I_inv in Hu.
Qed.

Lemma read_music_headers_fresh (f : BinaryIO) (songs : list SongInfo) :
  res (read_music_headers f) = Ok songs -> Forall fresh songs.
Proof.
  unfold read_music_headers. intros H.
  apply bind_Ok_inv in H as (u & _ & H).
  apply bind_Ok_inv in H as (magic & _ & H).
  destruct (negb (bytes_eqb magic SONG)); [discriminate|].
  repeat (apply bind_Ok_inv in H as (? & _ & H)).
  apply read_songs_fresh in H; [assumption | constructor].
Qed.

(** A table that the data holds in full is read in full, record by
    record. *)
Lemma table_at_full (d : bytes) (st : Z) (n : nat) :
  forall p : Z,
    0 <= p -> 0 <= st ->
    (n = O \/ p + st * (Z.of_nat n - 1) + 12 <= Z.of_nat (length d)) ->
    exists l,
      table_at d p st n = Ok l /\ length l = n /\
      forall i, (i < n)%nat ->
                nth_error l i = Some (descriptor_at d (p + st * Z.of_nat i)).
Proof.
  induction n as [|n IH]; intros p Hp Hst Hin.
  - exists []. repeat split. intros i Hi. lia.
  - destruct Hin as [Hin|Hin]; [discriminate|].
    cbn [table_at].
    assert (E : length (slice d p 12) = 12%nat).
    { pose proof (slice_length d p 12 Hp ltac:(lia) ltac:(nia)). lia. }
    rewrite E. cbn [Nat.eqb].
    destruct (IH (p + st) ltac:(lia) Hst) as (l & Hl & Hlen & Hnth).
    { destruct n as [|n]; [now left|right]. nia. }
    rewrite Hl. exists (descriptor_at d p :: l).
    split; [reflexivity|]. split; [cbn; lia|].
    intros [|i] Hi.
    + cbn. now rewrite Z.mul_0_r, Z.add_0_r.
    + cbn [nth_error]. rewrite Hnth by lia. do 2 f_equal. lia.
Qed.

Lemma header_fields (d : bytes) :
  20 <= Z.of_nat (length d) ->
  length (slice d 12 4) = 4%nat /\ length (slice d 16 4) = 4%nat.
Proof.
  intros H.
  pose proof (slice_length d 12 4 ltac:(lia) ltac:(lia) ltac:(lia)).
  pose proof (slice_length d 16 4 ltac:(lia) ltac:(lia) ltac:(lia)).
  lia.
Qed.

(* ================================================================== *)
(** ** Properties of the header reader *)

(** C7 as stated fails: with neither magic in place the parse stops at the
    outer check, line 45, and raises [RuntimeError] (not a container); the
    assertion on the sub-header magic is never reached. *)
Lemma subheader_check_not_reached :
  slice not_a_container 8 4 <> SGHD /\
  res (read_music_headers (open not_a_container)) = Raise RuntimeError /\
  res (read_music_headers (open not_a_container)) <> Raise AssertionError.
Proof.
  repeat split; vm_compute; discriminate.
Qed.

(** C7, amended: an input whose first four bytes are not [SONG] makes the
    header reader raise [RuntimeError] (not a container); an input that
    starts with [SONG] and whose bytes at offset 8 are not [SGHD] makes it
    raise [AssertionError] (malformed header).  In both cases no descriptor
    list is returned and the whole extraction stops with the same
    exception. *)
Theorem container_checks_fatal (g : f_binding) (f : BinaryIO) :
  (slice (data f) 0 4 <> SONG ->
   res (read_music_headers f) = Raise RuntimeError /\
   res (get_music_data g f) = Raise RuntimeError) /\
  (slice (data f) 0 4 = SONG -> slice (data f) 8 4 <> SGHD ->
   res (read_music_headers f) = Raise AssertionError /\
   res (get_music_data g f) = Raise AssertionError).
Proof.
  destruct f as [d p]. cbn [data]. unfold get_music_data. split.
  - intros H. rewrite res_bind.
    rewrite (read_music_headers_not_song d p H). now split.
  - intros H0 H8. rewrite res_bind.
    rewrite (read_music_headers_not_sghd d p H0 H8). now split.
Qed.

Lemma container_checks_fatal_witness :
  (slice not_a_container 0 4 <> SONG /\
   res (read_music_headers (open not_a_container)) = Raise RuntimeError /\
   res (get_music_data Unbound (open not_a_container)) = Raise RuntimeError)
  /\
  (slice bad_subheader 0 4 = SONG /\ slice bad_subheader 8 4 <> SGHD /\
   res (read_music_headers (open bad_subheader)) = Raise AssertionError /\
   res (get_music_data Unbound (open bad_subheader)) = Raise AssertionError).
Proof.
  assert (H1 : slice not_a_container 0 4 <> SONG)
    by (vm_compute; discriminate).
  assert (H2 : slice bad_subheader 0 4 = SONG) by reflexivity.
  assert (H3 : slice bad_subheader 8 4 <> SGHD)
    by (vm_compute; discriminate).
  split.
  - split; [exact H1|].
    exact (proj1 (container_checks_fatal Unbound (open not_a_container)) H1).
  - split; [exact H2|]. split; [exact H3|].
    exact (proj2 (container_checks_fatal Unbound (open bad_subheader)) H2 H3).
Defined.

(** C3: in a container with both magics and its 20 header bytes, a declared
    header-block length of 40 makes the reader use the V2 layout (table at
    byte 56, records 21 bytes apart, the cursor left 9 bytes after the last
    record's fields), and any other declared length makes it use the V1
    layout (table at byte 20, records 25 bytes apart, 13 trailing bytes);
    nothing else is checked on the declared length. *)
Theorem schema_detection (f : BinaryIO) :
  let d := data f in
  let header_len := be_val 0 (slice d 12 4) in
  let n := Z.to_nat (le_val (slice d 16 4)) in
  slice d 0 4 = SONG -> slice d 8 4 = SGHD ->
  20 <= Z.of_nat (length d) ->
  (header_len = 40 ->
   res (read_music_headers f) = table_at d 56 21 n /\
   forall songs, res (read_music_headers f) = Ok songs ->
                 pos (after (read_music_headers f))
                 = 56 + (12 + 9) * Z.of_nat n) /\
  (header_len <> 40 ->
   res (read_music_headers f) = table_at d 20 25 n /\
   forall songs, res (read_music_headers f) = Ok songs ->
                 pos (after (read_music_headers f))
                 = 20 + (12 + 13) * Z.of_nat n).
Proof.
  destruct f as [d p]. intros d0 header_len n. cbn [data] in d0.
  subst d0. intros H0 H8 Hlen.
  destruct (header_fields d Hlen) as [H12 H16].
  pose proof (read_music_headers_run d p H0 H8 H12 H16) as R.
  cbv zeta in R. fold header_len n in R.
  split; intros Hh.
  - apply Z.eqb_eq in Hh. rewrite Hh in R.
    destruct (table_at d 56 21 n) as [l|e].
    + rewrite R. cbn [res after pos]. split; [reflexivity|].
      intros songs _. lia.
    + split; [exact R|]. intros songs Hs. congruence.
  - apply Z.eqb_neq in Hh. rewrite Hh in R.
    destruct (table_at d 20 25 n) as [l|e].
    + rewrite R. cbn [res after pos]. split; [reflexivity|].
      intros songs _. lia.
    + split; [exact R|]. intros songs Hs. congruence.
Qed.

Lemma schema_detection_witness :
  res (read_music_headers (open container_v2))
  = table_at container_v2 56 21 2 /\
  res (read_music_headers (open container_v1))
  = table_at container_v1 20 25 1.
Proof.
  split.
  - refine (proj1 (proj1 (schema_detection (open container_v2) _ _ _) _)).
    + reflexivity.
    + reflexivity.
    + vm_compute. discriminate.
    + reflexivity.
  - refine (proj1 (proj2 (schema_detection (open container_v1) _ _ _) _)).
    + reflexivity.
    + reflexivity.
    + vm_compute. discriminate.
    + vm_compute. discriminate.
Defined.

(** C4: in a well-formed container (both magics, the 20 header bytes, and
    every record of the table held in full) that declares [n] tracks, the
    header reader returns exactly [n] descriptors, in table order; the
    [i]-th has for id, offset and size the three consecutive 4-byte
    little-endian integers at the start of the [i]-th record, and its
    other fields hold their defaults. *)
Theorem descriptors_in_table_order (f : BinaryIO) :
  let d := data f in
  let n := Z.to_nat (le_val (slice d 16 4)) in
  let start := if be_val 0 (slice d 12 4) =? 40 then 56 else 20 in
  let stride := if be_val 0 (slice d 12 4) =? 40 then 21 else 25 in
  slice d 0 4 = SONG -> slice d 8 4 = SGHD ->
  20 <= Z.of_nat (length d) ->
  (n = O \/
   start + stride * (Z.of_nat n - 1) + 12 <= Z.of_nat (length d)) ->
  exists songs,
    res (read_music_headers f) = Ok songs /\
    length songs = n /\
    forall i, (i < n)%nat ->
      exists s,
        nth_error songs i = Some s /\
        id s = le_val (slice d (start + stride * Z.of_nat i) 4) /\
        offset s = le_val (slice d (start + stride * Z.of_nat i + 4) 4) /\
        size s = le_val (slice d (start + stride * Z.of_nat i + 8) 4) /\
        rate s = None /\ payload s = None /\ sbng_code_offset s = -1.
Proof.
  destruct f as [d p]. intros d0 n start stride. cbn [data] in d0.
  subst d0. intros H0 H8 Hlen Hfull.
  destruct (header_fields d Hlen) as [H12 H16].
  pose proof (read_music_headers_run d p H0 H8 H12 H16) as R.
  cbv zeta in R. fold n start stride in R.
  destruct (table_at_full d stride n start) as (l & Hl & Hn & Hnth).
  - subst start. destruct (_ =? 40); lia.
  - subst stride. destruct (_ =? 40); lia.
  - exact Hfull.
  - rewrite Hl in R. exists l. rewrite R. split; [reflexivity|].
    split; [exact Hn|]. intros i Hi.
    exists (descriptor_at d (start + stride * Z.of_nat i)).
    split; [now apply Hnth|]. cbn. repeat split.
Qed.

Lemma descriptors_in_table_order_witness :
  exists songs,
    res (read_music_headers (open container_v2)) = Ok songs /\
    length songs = 2%nat /\
    forall i, (i < 2)%nat ->
      exists s,
        nth_error songs i = Some s /\
        id s = le_val (slice container_v2 (56 + 21 * Z.of_nat i) 4) /\
        offset s = le_val (slice container_v2 (56 + 21 * Z.of_nat i + 4) 4) /\
        size s = le_val (slice container_v2 (56 + 21 * Z.of_nat i + 8) 4) /\
        rate s = None /\ payload s = None /\ sbng_code_offset s = -1.
Proof.
  refine (descriptors_in_table_order (open container_v2) _ _ _ _).
  - reflexivity.
  - reflexivity.
  - vm_compute. discriminate.
  - right. vm_compute. discriminate.
Defined.

(* ================================================================== *)
(** ** Properties of the extraction of one track *)

(** C5 as stated fails: a track made of [DIGI], a rate at 22 and [SDAT]
    with a declared size does not always give declared-size-minus-8
    payload bytes.  The track of [container_size_6] declares 6 bytes,
    less than the 8 of the chunk header, and its round raises
    [ValueError]; the track of [container_cut] declares 108 bytes in a
    file that holds 11 of them, and its round returns 3 payload bytes,
    not 100. *)
Lemma declared_size_not_always_honoured :
  (slice container_size_6 77 4 = DIGI /\
   slice container_size_6 (77 + 22) 4 = pack_LE_I 11025 /\
   slice container_size_6 (77 + 32) 4 = SDAT /\
   slice container_size_6 (77 + 36) 4 = pack_BE_I 6 /\
   res (song_body Unbound (new_SongInfo 7 77 45) (open container_size_6))
   = Raise ValueError /\
   res (get_music_data Unbound (open container_size_6)) = Raise ValueError)
  /\
  (slice container_cut 77 4 = DIGI /\
   slice container_cut (77 + 22) 4 = pack_LE_I 11025 /\
   slice container_cut (77 + 32) 4 = SDAT /\
   slice container_cut (77 + 36) 4 = pack_BE_I 108 /\
   exists s' pl,
     res (song_body Unbound (new_SongInfo 7 77 140) (open container_cut))
     = Ok s' /\
     payload s' = Some pl /\
     Z.of_nat (length pl) = 3 /\
     Z.of_nat (length pl) <> 108 - 8).
Proof.
  split.
  - repeat split; vm_compute; reflexivity.
  - split; [reflexivity|]. split; [reflexivity|].
    split; [reflexivity|]. split; [reflexivity|].
    exists (mkSongInfo 7 77 140 (Some 11025)
                       (Some (list_byte_of_string "abc")) (-1)),
           (list_byte_of_string "abc").
    repeat split; vm_compute; try reflexivity; discriminate.
Qed.

(** C5, amended: for a track made of [DIGI], a little-endian rate at
    relative offset 22, filler up to 32, then [SDAT] with a big-endian
    declared size that is at least 8 and whose declared bytes are all in
    the file, the round returns the song with exactly that rate and
    exactly the declared-size-minus-8 bytes that follow the size field,
    logs no warning and leaves the other fields alone. *)
Theorem digital_track_extracted (g : f_binding) (song : SongInfo)
        (f : BinaryIO) :
  let d := data f in
  let off := offset song in
  let declared := be_val 0 (slice d (off + 36) 4) in
  0 <= off ->
  slice d off 4 = DIGI ->
  slice d (off + 32) 4 = SDAT ->
  8 <= declared ->
  off + 32 + declared <= Z.of_nat (length d) ->
  exists s',
    res (song_body g song f) = Ok s' /\
    logged (song_body g song f) = [] /\
    rate s' = Some (le_val (slice d (off + 22) 4)) /\
    payload s' = Some (slice d (off + 40) (declared - 8)) /\
    Z.of_nat (length (slice d (off + 40) (declared - 8))) = declared - 8 /\
    descriptor_key s' = descriptor_key song /\
    sbng_code_offset s' = sbng_code_offset song.
Proof.
  destruct f as [d p]. intros d0 off declared. cbn [data] in d0. subst d0.
  intros Hoff Hdigi Hsdat Hdecl Hlen.
  assert (Hrate : length (slice d (off + 22) 4) = 4%nat).
  { pose proof (slice_length d (off + 22) 4). lia. }
  assert (Hsize : length (slice d (off + 36) 4) = 4%nat).
  { pose proof (slice_length d (off + 36) 4). lia. }
  rewrite (song_body_sdat g song d p Hoff Hdigi Hrate Hsdat Hsize Hdecl).
  eexists. cbn [res logged].
  split; [reflexivity|]. split; [reflexivity|].
  split; [reflexivity|]. split; [reflexivity|].
  split; [|split; reflexivity].
  apply slice_length; lia.
Qed.

Lemma digital_track_extracted_witness :
  exists s',
    res (song_body Unbound (new_SongInfo 7 77 45) (open container_plain))
    = Ok s' /\
    logged (song_body Unbound (new_SongInfo 7 77 45) (open container_plain))
    = [] /\
    rate s' = Some 11025 /\
    payload s' = Some hello /\
    Z.of_nat (length hello) = 13 - 8 /\
    descriptor_key s' = (7, 77, 45) /\
    sbng_code_offset s' = -1.
Proof.
  refine (digital_track_extracted Unbound (new_SongInfo 7 77 45)
                                  (open container_plain) _ _ _ _ _).
  - cbn. lia.
  - reflexivity.
  - reflexivity.
  - vm_compute. discriminate.
  - vm_compute. discriminate.
Defined.

(** C2 as stated fails: the payload chunk of [container_cut] declares 108
    bytes, the file holds 11 of them, and the extraction returns the track
    with the three samples there are instead of raising. *)
Lemma cut_payload_returned :
  be_val 0 (slice container_cut (77 + 36) 4) = 108 /\
  Z.of_nat (length container_cut) - (77 + 32) = 11 /\
  res (get_music_data Unbound (open container_cut))
  = Ok [mkSongInfo 7 77 140 (Some 11025)
                   (Some (list_byte_of_string "abc")) (-1)] /\
  Z.of_nat (length (list_byte_of_string "abc")) < 108 - 8.
Proof.
  repeat split; vm_compute; reflexivity.
Qed.

(** C2, amended: for a track ([DIGI], rate, [SDAT], size field in place,
    declared size at least 8) whose declared chunk size exceeds the bytes
    remaining in the file, the round raises nothing and logs nothing: it
    returns the song with the rate and, as payload, the bytes that remain
    after the size field, which are fewer than the declared size minus 8;
    nothing is padded. *)
Theorem short_payload_returned (g : f_binding) (song : SongInfo)
        (f : BinaryIO) :
  let d := data f in
  let off := offset song in
  let declared := be_val 0 (slice d (off + 36) 4) in
  0 <= off ->
  slice d off 4 = DIGI ->
  slice d (off + 32) 4 = SDAT ->
  off + 40 <= Z.of_nat (length d) ->
  8 <= declared ->
  Z.of_nat (length d) - (off + 32) < declared ->
  exists s',
    res (song_body g song f) = Ok s' /\
    logged (song_body g song f) = [] /\
    rate s' = Some (le_val (slice d (off + 22) 4)) /\
    payload s' = Some (skipn (Z.to_nat (off + 40)) d) /\
    Z.of_nat (length (skipn (Z.to_nat (off + 40)) d))
    = Z.of_nat (length d) - (off + 40) /\
    Z.of_nat (length (skipn (Z.to_nat (off + 40)) d)) < declared - 8.
Proof.
  destruct f as [d p]. intros d0 off declared. cbn [data] in d0. subst d0.
  intros Hoff Hdigi Hsdat Hlen Hdecl Hcut.
  assert (Hrate : length (slice d (off + 22) 4) = 4%nat).
  { pose proof (slice_length d (off + 22) 4). lia. }
  assert (Hsize : length (slice d (off + 36) 4) = 4%nat).
  { pose proof (slice_length d (off + 36) 4). lia. }
  rewrite (song_body_sdat g song d p Hoff Hdigi Hrate Hsdat Hsize Hdecl).
  subst declared off. cbv zeta.
  rewrite (slice_short d (offset song + 40)) by lia.
  eexists. cbn [res logged].
  split; [reflexivity|]. split; [reflexivity|].
  split; [reflexivity|]. split; [reflexivity|].
  rewrite length_skipn. lia.
Qed.

Lemma short_payload_returned_witness :
  exists s',
    res (song_body Unbound (new_SongInfo 7 77 140) (open container_cut))
    = Ok s' /\
    logged (song_body Unbound (new_SongInfo 7 77 140) (open container_cut))
    = [] /\
    rate s' = Some (le_val (slice container_cut (77 + 22) 4)) /\
    payload s' = Some (skipn (Z.to_nat (77 + 40)) container_cut) /\
    Z.of_nat (length (skipn (Z.to_nat (77 + 40)) container_cut))
    = Z.of_nat (length container_cut) - (77 + 40) /\
    Z.of_nat (length (skipn (Z.to_nat (77 + 40)) container_cut))
    < be_val 0 (slice container_cut (77 + 36) 4) - 8.
Proof.
  refine (short_payload_returned Unbound (new_SongInfo 7 77 140)
                                 (open container_cut) _ _ _ _ _ _).
  - cbn. lia.
  - reflexivity.
  - reflexivity.
  - vm_compute. discriminate.
  - vm_compute. discriminate.
  - vm_compute. reflexivity.
Defined.

(* ================================================================== *)
(** ** Skipped tracks *)

Lemma for_songs_length (g : f_binding) (l out : list SongInfo)
      (f : BinaryIO) :
  res (for_songs g l f) = Ok out -> length out = length l.
Proof.
  destruct f as [d p]. intros H. apply for_songs_inv in H.
  symmetry. exact (Forall2_length H).
Qed.




(* ================================================================== *)
(** ** The inline code block *)

(** C1, at a container with a code block before the payload chunk: when
    the module is imported the name [f] of line 105 is unbound and the
    extraction raises [NameError], where the same track without the code
    block is extracted; run as a script, where [f] is the file itself, the
    block is skipped, rate and payload are those of the track without it
    and the offset field is 40. *)
Theorem inline_code_block_name_error :
  res (get_music_data Unbound (open container_plain))
  = Ok [mkSongInfo 7 77 45 (Some 11025) (Some hello) (-1)] /\
  res (get_music_data Unbound (open container_sbng)) = Raise NameError /\
  res (get_music_data SameFile (open container_sbng))
  = Ok [mkSongInfo 7 77 55 (Some 11025) (Some hello) 40].
Proof.
  repeat split; vm_compute; reflexivity.
Qed.

(** X14: with [f] unbound, every round that finds [SBNG] at 32 and can
    read the length field after it raises [NameError]. *)
Lemma inline_code_block_unbound (song : SongInfo) (f : BinaryIO) :
  let d := data f in
  let off := offset song in
  0 <= off ->
  slice d off 4 = DIGI ->
  slice d (off + 32) 4 = SBNG ->
  off + 40 <= Z.of_nat (length d) ->
  res (song_body Unbound song f) = Raise NameError.
Proof.
  destruct f as [d p]. intros d0 off. cbn [data] in d0. subst d0.
  intros Hoff Hdigi Hsbng Hlen.
  assert (Hrate : length (slice d (off + 22) 4) = 4%nat).
  { pose proof (slice_length d (off + 22) 4). lia. }
  assert (Hsize : length (slice d (off + 36) 4) = 4%nat).
  { pose proof (slice_length d (off + 36) 4). lia. }
  now rewrite (song_body_code_unbound Unbound song d p Hoff Hdigi Hrate
                                      Hsbng Hsize eq_refl).
Qed.

(* ================================================================== *)
(** ** The code block, when [f] is the file *)

(** A read sees only the bytes from the cursor on. *)
Lemma read_tail (n : Z) (d1 d2 : bytes) (q1 q2 : Z) :
  0 <= q1 -> 0 <= q2 ->
  skipn (Z.to_nat q1) d1 = skipn (Z.to_nat q2) d2 ->
  res (read n (mkFile d1 q1)) = res (read n (mkFile d2 q2)) /\
  0 <= pos (after (read n (mkFile d1 q1))) /\
  0 <= pos (after (read n (mkFile d2 q2))) /\
  skipn (Z.to_nat (pos (after (read n (mkFile d1 q1))))) d1
  = skipn (Z.to_nat (pos (after (read n (mkFile d2 q2))))) d2.
Proof.
  intros H1 H2 E. unfold read. cbn [data pos].
  destruct (n <? -1).
  - cbn [raise res after pos]. repeat split; assumption.
  - cbn [res after pos]. rewrite E.
    set (out := if n <? 0 then _ else _).
    repeat split; try lia.
    rewrite !Z2Nat.inj_add, !Nat2Z.id by lia.
    rewrite (Nat.add_comm (Z.to_nat q1)), (Nat.add_comm (Z.to_nat q2)).
    now rewrite <- !skipn_skipn, E.
Qed.

Lemma unpack_BE_I_after (b : bytes) (f : BinaryIO) :
  after (unpack_BE_I b f) = f.
Proof. unfold unpack_BE_I. destruct (_ =? _)%nat; reflexivity. Qed.

Lemma unpack_BE_I_res (b : bytes) (f f' : BinaryIO) :
  res (unpack_BE_I b f) = res (unpack_BE_I b f').
Proof. unfold unpack_BE_I. destruct (_ =? _)%nat; reflexivity. Qed.

(** Lines 114-119 see only the bytes from the cursor on. *)
Lemma payload_lines_tail (s : SongInfo) (r : Z) (d1 d2 : bytes) (q1 q2 : Z) :
  0 <= q1 -> 0 <= q2 ->
  skipn (Z.to_nat q1) d1 = skipn (Z.to_nat q2) d2 ->
  res (payload_lines s r (mkFile d1 q1)) = res (payload_lines s r (mkFile d2 q2)).
Proof.
  intros H1 H2 E. unfold payload_lines. rewrite !res_bind.
  destruct (read_tail 4 d1 d2 q1 q2 H1 H2 E) as (Er & P1 & P2 & Et).
  rewrite Er. destruct (res (read 4 (mkFile d2 q2))) as [b|e]; [|reflexivity].
  rewrite !res_bind.
  rewrite (unpack_BE_I_res b _ (after (read 4 (mkFile d2 q2)))).
  destruct (res (unpack_BE_I b _)) as [n|e]; [|reflexivity].
  rewrite !unpack_BE_I_after. rewrite !res_bind.
  rewrite (after_file _ (mkFile d1 q1) (keeps_data_read 4)).
  rewrite (after_file _ (mkFile d2 q2) (keeps_data_read 4)).
  cbn [data].
  destruct (read_tail (n - 8) d1 d2 _ _ P1 P2 Et) as (Er2 & _).
  rewrite Er2. reflexivity.
Qed.

(** Lines 114-119 do not look at the offset field of the song. *)
Lemma payload_lines_sbng (s : SongInfo) (r v : Z) (f : BinaryIO) :
  res (payload_lines (set_sbng_code_offset s v) r f) =
  match res (payload_lines s r f) with
  | Ok s' => Ok (set_sbng_code_offset s' v)
  | Raise e => Raise e
  end.
Proof.
  unfold payload_lines. rewrite !res_bind.
  destruct (res (read 4 f)) as [b|e]; [|reflexivity].
  rewrite !res_bind.
  destruct (res (unpack_BE_I b _)) as [n|e]; [|reflexivity].
  rewrite !res_bind.
  destruct (res (read (n - 8) _)) as [pl|e]; reflexivity.
Qed.

(** X13: run as a script, the extractor skips a code block as the format
    intends.  [d] holds at [off] a digital track with a code block of
    declared length [L] at 32; [d'] holds at [off] the same track without
    the block: the same 32 bytes, then what follows the block in [d],
    starting with [SDAT].  The round on [d] gives what the round on [d']
    gives, rate and payload included, with the offset field set to 40. *)
Lemma inline_code_skipped_same_file (song : SongInfo) (d d' : bytes)
      (p p' : Z) :
  let off := offset song in
  let L := be_val 0 (slice d (off + 36) 4) in
  0 <= off ->
  slice d off 32 = slice d' off 32 ->
  slice d off 4 = DIGI ->
  length (slice d (off + 22) 4) = 4%nat ->
  slice d (off + 32) 4 = SBNG ->
  length (slice d (off + 36) 4) = 4%nat ->
  skipn (Z.to_nat (off + 32 + L)) d = skipn (Z.to_nat (off + 32)) d' ->
  slice d' (off + 32) 4 = SDAT ->
  res (song_body SameFile song (mkFile d p)) =
  match res (song_body SameFile song (mkFile d' p')) with
  | Ok s' => Ok (set_sbng_code_offset s' 40)
  | Raise e => Raise e
  end.
Proof.
  intros off L Hoff Hhead Hdigi Hrate Hsbng Hlen Htail Hsdat.
  assert (HL : 0 <= L) by (apply be_val_nonneg; lia).
  assert (Hsub : forall a m, 0 <= a -> 0 <= m -> a + m <= 32 ->
                             slice d (off + a) m = slice d' (off + a) m).
  { intros a m Ha Hm Ham.
    rewrite <- (slice_slice d off 32 a m), <- (slice_slice d' off 32 a m)
      by lia.
    now rewrite Hhead. }
  assert (Hdigi' : slice d' off 4 = DIGI).
  { rewrite <- (Z.add_0_r off), <- Hsub by lia.
    now rewrite Z.add_0_r. }
  assert (Hr : slice d (off + 22) 4 = slice d' (off + 22) 4)
    by (apply Hsub; lia).
  assert (Hrate' : length (slice d' (off + 22) 4) = 4%nat)
    by now rewrite <- Hr.
  assert (Htag2 : slice d (off + 32 + L) 4 = SDAT).
  { unfold slice in *. now rewrite Htail. }
  rewrite (song_body_code_payload SameFile song d p Hoff Hdigi Hrate Hsbng
                                  Hlen eq_refl Htag2).
  rewrite (song_body_sdat_payload SameFile song d' p' Hoff Hdigi' Hrate'
                                  Hsdat).
  fold off L. rewrite payload_lines_sbng. rewrite Hr.
  rewrite (payload_lines_tail song _ d d' (off + 36 + L) (off + 36)); try lia.
  - reflexivity.
  - replace (Z.to_nat (off + 36 + L)) with (4 + Z.to_nat (off + 32 + L))%nat
      by lia.
    replace (Z.to_nat (off + 36)) with (4 + Z.to_nat (off + 32))%nat by lia.
    now rewrite <- !skipn_skipn, Htail.
Qed.

(* ================================================================== *)
(** ** Properties of the whole extraction *)

(** C8: the parse is a function of the bytes.  Run a second time on the
    same file object, wherever the first run left the cursor, the header
    reader returns the same descriptor list and the extraction the same
    songs, payloads included (or both runs raise the same exception); so
    do two runs on two handles of the same bytes, whatever their cursors;
    and a run leaves the bytes as they are. *)
Theorem parse_deterministic (g : f_binding) (f : BinaryIO) :
  res (read_music_headers (after (read_music_headers f)))
  = res (read_music_headers f) /\
  res (get_music_data g (after (get_music_data g f)))
  = res (get_music_data g f) /\
  (forall p q,
      read_music_headers (mkFile (data f) p)
      = read_music_headers (mkFile (data f) q) /\
      get_music_data g (mkFile (data f) p)
      = get_music_data g (mkFile (data f) q)) /\
  data (after (read_music_headers f)) = data f /\
  data (after (get_music_data g f)) = data f.
Proof.
  split; [|split; [|split; [|split]]].
  - rewrite (after_file _ f keeps_data_read_music_headers).
    rewrite (file_eta f) at 3.
    now rewrite (read_music_headers_any_cursor _ _ (pos f)).
  - rewrite (after_file _ f (keeps_data_get_music_data g)).
    rewrite (file_eta f) at 3.
    now rewrite (get_music_data_any_cursor g _ _ (pos f)).
  - intros p q. split.
    + apply read_music_headers_any_cursor.
    + apply get_music_data_any_cursor.
  - apply keeps_data_read_music_headers.
  - apply keeps_data_get_music_data.
Qed.

(** C9: whatever the extraction returns, the entries are those of the
    header reader, in order, with id, offset and size unchanged, for the
    tracks extracted and for the tracks skipped alike. *)
Theorem descriptor_fields_unchanged (g : f_binding) (f : BinaryIO)
        (out : list SongInfo) :
  res (get_music_data g f) = Ok out ->
  exists songs,
    res (read_music_headers f) = Ok songs /\
    length out = length songs /\
    Forall2 (fun s s' => id s' = id s /\ offset s' = offset s /\
                         size s' = size s) songs out.
Proof.
  unfold get_music_data. intros H.
  apply bind_Ok_inv in H as (songs & Hs & H).
  exists songs. split; [exact Hs|].
  rewrite (after_file _ f keeps_data_read_music_headers) in H.
  split; [now apply for_songs_length in H|].
  apply for_songs_inv in H.
  revert H. apply Forall2_impl. intros s s' Hb.
  apply song_body_inv in Hb as [Hk _].
  unfold descriptor_key in Hk. injection Hk as -> -> ->. now repeat split.
Qed.

Lemma descriptor_fields_unchanged_witness :
  exists songs,
    res (read_music_headers (open container_v2)) = Ok songs /\
    length [mkSongInfo 7 98 45 (Some 11025) (Some hello) (-1);
            mkSongInfo 8 143 40 None None (-1)] = length songs /\
    Forall2 (fun s s' => id s' = id s /\ offset s' = offset s /\
                         size s' = size s)
            songs
            [mkSongInfo 7 98 45 (Some 11025) (Some hello) (-1);
             mkSongInfo 8 143 40 None None (-1)].
Proof.
  refine (descriptor_fields_unchanged Unbound (open container_v2) _ _).
  vm_compute. reflexivity.
Defined.

(** C10: in every song the extraction returns, [sbng_code_offset] is
    either -1, the default, or 40, and it is 40 exactly for the tracks
    that have [DIGI] at their offset and [SBNG] 32 bytes further. *)
Theorem inline_code_offset_values (g : f_binding) (f : BinaryIO)
        (out : list SongInfo) :
  res (get_music_data g f) = Ok out ->
  Forall (fun s =>
            (sbng_code_offset s = -1 /\
             ~ (slice (data f) (offset s) 4 = DIGI /\
                slice (data f) (offset s + 32) 4 = SBNG)) \/
            (sbng_code_offset s = 40 /\
             slice (data f) (offset s) 4 = DIGI /\
             slice (data f) (offset s + 32) 4 = SBNG)) out.
Proof.
  unfold get_music_data. intros H.
  apply bind_Ok_inv in H as (songs & Hs & H).
  apply read_music_headers_fresh in Hs.
  rewrite (after_file _ f keeps_data_read_music_headers) in H.
  apply for_songs_inv in H.
  induction H as [|s s' l l' Hb _ IH]; constructor.
  - apply Forall_inv in Hs. destruct Hs as (_ & _ & Hdef & _).
    apply song_body_inv in Hb as [Hk Hc].
    unfold descriptor_key in Hk. injection Hk as _ Ho _. rewrite Ho.
    destruct Hc as [[Hv Hno]|(Hv & _ & Hd & Hb)].
    + left. split; [congruence | exact Hno].
    + right. now repeat split.
  - apply IH. now apply Forall_inv_tail in Hs.
Qed.

Lemma inline_code_offset_values_witness :
  Forall (fun s =>
            (sbng_code_offset s = -1 /\
             ~ (slice container_sbng (offset s) 4 = DIGI /\
                slice container_sbng (offset s + 32) 4 = SBNG)) \/
            (sbng_code_offset s = 40 /\
             slice container_sbng (offset s) 4 = DIGI /\
             slice container_sbng (offset s + 32) 4 = SBNG))
         [mkSongInfo 7 77 55 (Some 11025) (Some hello) 40].
Proof.
  refine (inline_code_offset_values SameFile (open container_sbng) _ _).
  vm_compute. reflexivity.
Defined.

(* ================================================================== *)
(** * Further properties of the parser *)

(* ================================================================== *)
(** ** Cut headers and cut tables *)

(** Line 49: the header-length field must hold four bytes. *)
Lemma read_music_headers_short_len (d : bytes) (p : Z) :
  slice d 0 4 = SONG -> slice d 8 4 = SGHD ->
  length (slice d 12 4) <> 4%nat ->
  res (read_music_headers (mkFile d p)) = Raise StructError.
Proof.
  intros H0 H8 H12. unfold read_music_headers.
  step (seek_set_run d p 0 ltac:(lia)).
  step (read_tag_run d 0 SONG eq_refl H0).
  rewrite bytes_eqb_refl. cbn [negb].
  step (seek_cur_run d (0 + 4) 4 ltac:(lia)).
  change (0 + 4 + 4) with 8.
  step (read_tag_run d 8 SGHD eq_refl H8).
  rewrite bytes_eqb_refl. unfold py_assert. rewrite bind_ret.
  change (8 + 4) with 12.
  step (read_run d 12 4 ltac:(lia)).
  now rewrite (bind_raise _ _ _ _ _ _ (unpack_BE_I_short _ _ H12)).
Qed.

(** Line 54: the track-count field must hold four bytes. *)
Lemma read_music_headers_short_count (d : bytes) (p : Z) :
  slice d 0 4 = SONG -> slice d 8 4 = SGHD ->
  length (slice d 12 4) = 4%nat ->
  length (slice d 16 4) <> 4%nat ->
  res (read_music_headers (mkFile d p)) = Raise StructError.
Proof.
  intros H0 H8 H12 H16. unfold read_music_headers.
  step (seek_set_run d p 0 ltac:(lia)).
  step (read_tag_run d 0 SONG eq_refl H0).
  rewrite bytes_eqb_refl. cbn [negb].
  step (seek_cur_run d (0 + 4) 4 ltac:(lia)).
  change (0 + 4 + 4) with 8.
  step (read_tag_run d 8 SGHD eq_refl H8).
  rewrite bytes_eqb_refl. unfold py_assert. rewrite bind_ret.
  change (8 + 4) with 12.
  step (read_4_run d 12 H12).
  step (unpack_BE_I_run _ (mkFile d (12 + 4)) H12).
  change (12 + 4) with 16.
  step (read_run d 16 4 ltac:(lia)).
  now rewrite (bind_raise _ _ _ _ _ _ (unpack_LE_I_short _ _ H16)).
Qed.

Lemma slice_short_length (d : bytes) (p n : Z) :
  0 <= p -> 0 < n -> Z.of_nat (length d) < p + n ->
  Z.of_nat (length (slice d p n)) < n.
Proof.
  intros Hp Hn H. unfold slice. rewrite length_firstn, length_skipn. lia.
Qed.

(** A table with a record that the data does not hold in full cannot be
    read; since the records follow one another, that is the case as soon
    as the last one is cut. *)
Lemma table_at_cut (d : bytes) (st : Z) (n : nat) :
  forall p : Z,
    0 <= p -> 0 <= st -> n <> O ->
    Z.of_nat (length d) < p + st * (Z.of_nat n - 1) + 12 ->
    table_at d p st n = Raise StructError.
Proof.
  induction n as [|n IH]; intros p Hp Hst Hn Hcut; [contradiction|].
  cbn [table_at].
  destruct (Nat.eqb_spec (length (slice d p 12)) 12) as [E|E];
    [|reflexivity].
  destruct n as [|n].
  - change (Z.of_nat 1 - 1) with 0 in Hcut. rewrite Z.mul_0_r in Hcut.
    pose proof (slice_short_length d p 12 Hp ltac:(lia) ltac:(lia)). lia.
  - rewrite (IH (p + st)); [reflexivity | lia | lia | discriminate | nia].
Qed.

Lemma table_at_raises (d : bytes) (st : Z) (n : nat) :
  forall (p : Z) (e : exn), table_at d p st n = Raise e -> e = StructError.
Proof.
  induction n as [|n IH]; intros p e H; cbn [table_at] in H.
  - discriminate.
  - destruct (_ =? _)%nat; [|congruence].
    destruct (table_at d (p + st) st n) as [l|e'] eqn:E; [discriminate|].
    injection H as <-. now apply (IH (p + st)).
Qed.

(** X1: a container cut inside its header or inside its descriptor
    table is refused as a whole.  With both magics in place, fewer than 20
    bytes make the header reader raise [struct.error]; with the 20 header
    bytes and a declared count [n], the reader returns a list exactly when
    [n] is 0 or the last record is held in full, and raises [struct.error]
    otherwise: no partial list is ever returned. *)
Theorem cut_table_refused (f : BinaryIO) :
  let d := data f in
  let n := Z.to_nat (le_val (slice d 16 4)) in
  let start := if be_val 0 (slice d 12 4) =? 40 then 56 else 20 in
  let stride := if be_val 0 (slice d 12 4) =? 40 then 21 else 25 in
  slice d 0 4 = SONG -> slice d 8 4 = SGHD ->
  (Z.of_nat (length d) < 20 ->
   res (read_music_headers f) = Raise StructError) /\
  (20 <= Z.of_nat (length d) ->
   ((n = O \/
     start + stride * (Z.of_nat n - 1) + 12 <= Z.of_nat (length d)) ->
    exists songs, res (read_music_headers f) = Ok songs /\
                  length songs = n) /\
   (n <> O ->
    Z.of_nat (length d) < start + stride * (Z.of_nat n - 1) + 12 ->
    res (read_music_headers f) = Raise StructError)).
Proof.
  destruct f as [d p]. intros d0 n start stride. cbn [data] in d0.
  subst d0. intros H0 H8. split.
  - intros Hlen.
    destruct (Nat.eq_dec (length (slice d 12 4)) 4) as [H12|H12].
    + apply read_music_headers_short_count; try assumption.
      pose proof (slice_short_length d 16 4). lia.
    + now apply read_music_headers_short_len.
  - intros Hlen.
    destruct (header_fields d Hlen) as [H12 H16].
    pose proof (read_music_headers_run d p H0 H8 H12 H16) as R.
    cbv zeta in R. fold n start stride in R.
    assert (Hstart : 0 <= start) by (subst start; destruct (_ =? 40); lia).
    assert (Hstride : 0 <= stride)
      by (subst stride; destruct (_ =? 40); lia).
    split.
    + intros Hfull.
      destruct (table_at_full d stride n start Hstart Hstride Hfull)
        as (l & Hl & Hn & _).
      rewrite Hl in R. exists l. now rewrite R.
    + intros Hn Hcut.
      now rewrite (table_at_cut d stride n start Hstart Hstride Hn Hcut)
        in R.
Qed.

(* ================================================================== *)
(** ** The exceptions of the parser *)

Lemma read_raises (n : Z) (f : BinaryIO) (e : exn) :
  res (read n f) = Raise e -> e = ValueError /\ n < -1.
Proof.
  unfold read. destruct (Z.ltb_spec n (-1)) as [Hn|Hn]; cbn [raise res];
    intros H.
  - injection H as <-. now split.
  - discriminate.
Qed.

Lemma unpack_BE_I_raises (b : bytes) (f : BinaryIO) (e : exn) :
  res (unpack_BE_I b f) = Raise e -> e = StructError.
Proof.
  unfold unpack_BE_I. destruct (_ =? _)%nat; cbn; congruence.
Qed.

Lemma bind_Raise_inv {A B} (m : M A) (k : A -> M B) (f : BinaryIO)
      (e : exn) :
  res (bind m k f) = Raise e ->
  res (m f) = Raise e \/
  exists a, res (m f) = Ok a /\ res (k a (after (m f))) = Raise e.
Proof.
  rewrite res_bind. destruct (res (m f)) as [a|e']; intros H.
  - right. exists a. split; [reflexivity | exact H].
  - left. injection H as ->. reflexivity.
Qed.

(** Lines 114-119 raise only [struct.error] (size field cut) or
    [ValueError] (negative length below -1). *)
Lemma payload_lines_raises (s : SongInfo) (r : Z) (f : BinaryIO) (e : exn) :
  res (payload_lines s r f) = Raise e -> e = StructError \/ e = ValueError.
Proof.
  unfold payload_lines. intros H.
  apply bind_Raise_inv in H as [H|(b & _ & H)].
  { apply read_raises in H. lia. }
  apply bind_Raise_inv in H as [H|(n & _ & H)].
  { left. now apply unpack_BE_I_raises in H. }
  apply bind_Raise_inv in H as [H|(pl & _ & H)].
  { right. now apply read_raises in H. }
  discriminate.
Qed.

(** The exceptions of one round, for a descriptor with an offset that is
    not negative. *)
Lemma song_body_raises (g : f_binding) (song : SongInfo) (d : bytes) (p : Z)
      (e : exn) :
  0 <= offset song ->
  res (song_body g song (mkFile d p)) = Raise e ->
  e = StructError \/ e = ValueError \/
  (e = NameError /\ g = Unbound /\
   slice d (offset song) 4 = DIGI /\ slice d (offset song + 32) 4 = SBNG).
Proof.
  intros Hoff H.
  destruct (bytes_eq_dec (slice d (offset song) 4) DIGI) as [Hdigi|Hdigi].
  2:{ rewrite (song_body_unsupported g song d p) in H by assumption.
      discriminate. }
  destruct (Nat.eq_dec (length (slice d (offset song + 22) 4)) 4)
    as [Hrate|Hrate].
  2:{ rewrite (song_body_rate_short g song d p) in H by assumption.
      left. congruence. }
  destruct (bytes_eq_dec (slice d (offset song + 32) 4) SBNG) as [Hsbng|Hsbng].
  - destruct (Nat.eq_dec (length (slice d (offset song + 36) 4)) 4)
      as [Hlen|Hlen].
    2:{ rewrite (song_body_code_short g song d p) in H by assumption.
        left. congruence. }
    destruct g.
    { rewrite (song_body_code_unbound Unbound song d p) in H
        by (assumption || reflexivity).
      cbn [res] in H. injection H as <-. right. right. now repeat split. }
    set (L := be_val 0 (slice d (offset song + 36) 4)) in *.
    destruct (bytes_eq_dec (slice d (offset song + 32 + L) 4) SDAT)
      as [Hsdat|Hsdat].
    + rewrite (song_body_code_payload SameFile song d p) in H
        by (assumption || reflexivity).
      apply payload_lines_raises in H. tauto.
    + rewrite (song_body_code_missing SameFile song d p) in H
        by (assumption || reflexivity).
      discriminate.
  - destruct (bytes_eq_dec (slice d (offset song + 32) 4) SDAT)
      as [Hsdat|Hsdat].
    + rewrite (song_body_sdat_payload g song d p) in H by assumption.
      apply payload_lines_raises in H. tauto.
    + rewrite (song_body_missing g song d p) in H by assumption.
      discriminate.
Qed.

(** When the loop raises, some round raised, and the rounds before it had
    returned. *)
Lemma for_songs_raises (g : f_binding) (d : bytes) (l : list SongInfo) :
  forall (p : Z) (e : exn),
    res (for_songs g l (mkFile d p)) = Raise e ->
    exists l1 s l2 r1,
      l = l1 ++ s :: l2 /\
      res (for_songs g l1 (mkFile d 0)) = Ok r1 /\
      res (song_body g s (mkFile d 0)) = Raise e.
Proof.
  induction l as [|s l IH]; intros p e H; [discriminate|].
  rewrite (for_songs_cons g s l d p 0) in H.
  rewrite (song_body_any_cursor g s d p 0) in H.
  destruct (res (song_body g s (mkFile d 0))) as [s'|e'] eqn:E.
  - cbn [res_app] in H.
    destruct (res (for_songs g l (mkFile d 0))) as [r|e''] eqn:E2;
      [discriminate|].
    injection H as ->.
    destruct (IH 0 e E2) as (l1 & s1 & l2 & r1 & -> & H1 & H2).
    exists (s :: l1), s1, l2, (s' :: r1). split; [reflexivity|].
    split; [|exact H2].
    rewrite (for_songs_cons g s l1 d 0 0), E, H1. reflexivity.
  - cbn [res_app] in H. injection H as ->.
    exists [], s, l, []. now repeat split.
Qed.

(** The loop returns exactly when every round returns. *)
Lemma for_songs_returns (g : f_binding) (d : bytes) (l out : list SongInfo) :
  forall p : Z,
    Forall2 (fun s s' => res (song_body g s (mkFile d 0)) = Ok s') l out ->
    res (for_songs g l (mkFile d p)) = Ok out.
Proof.
  intros p H. revert p.
  induction H as [|s s' l l' Hb _ IH]; intros p; [reflexivity|].
  rewrite (for_songs_cons g s l d p 0).
  rewrite (song_body_any_cursor g s d p 0), Hb, IH. reflexivity.
Qed.

(** X2: the exceptions the parser can raise.  The header reader raises
    only [RuntimeError] (outer magic), [AssertionError] (sub-header magic)
    or [struct.error] (a field or record cut short).  The extraction
    raises those, [ValueError] or [NameError], never an error of [seek];
    and it raises [NameError] only when the name [f] is unbound and the
    table has a track with [DIGI] at its offset and [SBNG] 32 bytes
    further. *)
Theorem parser_exceptions (g : f_binding) (f : BinaryIO) (e : exn) :
  (res (read_music_headers f) = Raise e ->
   e = RuntimeError \/ e = AssertionError \/ e = StructError) /\
  (res (get_music_data g f) = Raise e ->
   e <> OSError /\
   (e = NameError ->
    g = Unbound /\
    exists songs s,
      res (read_music_headers f) = Ok songs /\ In s songs /\
      slice (data f) (offset s) 4 = DIGI /\
      slice (data f) (offset s + 32) 4 = SBNG)).
Proof.
  assert (Hh : res (read_music_headers f) = Raise e ->
               e = RuntimeError \/ e = AssertionError \/ e = StructError).
  { destruct f as [d p]. intros H.
    destruct (bytes_eq_dec (slice d 0 4) SONG) as [H0|H0].
    2:{ rewrite (read_music_headers_not_song d p H0) in H. left. congruence. }
    destruct (bytes_eq_dec (slice d 8 4) SGHD) as [H8|H8].
    2:{ rewrite (read_music_headers_not_sghd d p H0 H8) in H.
        right. left. congruence. }
    right. right.
    destruct (Nat.eq_dec (length (slice d 12 4)) 4) as [H12|H12].
    2:{ rewrite (read_music_headers_short_len d p H0 H8 H12) in H.
        congruence. }
    destruct (Nat.eq_dec (length (slice d 16 4)) 4) as [H16|H16].
    2:{ rewrite (read_music_headers_short_count d p H0 H8 H12 H16) in H.
        congruence. }
    pose proof (read_music_headers_run d p H0 H8 H12 H16) as R.
    cbv zeta in R.
    destruct (table_at d _ _ _) as [l|e'] eqn:E.
    - rewrite R in H. discriminate.
    - apply table_at_raises in E. congruence. }
  split; [exact Hh|].
  unfold get_music_data. intros H.
  apply bind_Raise_inv in H as [H|(songs & Hs & H)].
  { destruct (Hh H) as [-> | [-> | ->]]; split; discriminate. }
  rewrite (after_file _ f keeps_data_read_music_headers) in H.
  apply for_songs_raises in H as (l1 & s & l2 & r1 & -> & _ & H).
  pose proof (read_music_headers_fresh _ _ Hs) as Hf.
  apply Forall_app in Hf as [_ Hf]. apply Forall_inv in Hf.
  destruct Hf as (_ & _ & _ & Hoff).
  apply song_body_raises in H; [|exact Hoff].
  destruct H as [-> | [-> | (-> & -> & Hd & Hb)]].
  - split; discriminate.
  - split; discriminate.
  - split; [discriminate|]. intros _. split; [reflexivity|].
    exists (l1 ++ s :: l2), s. repeat split; try assumption.
    apply in_or_app. right. now left.
Qed.

Lemma parser_exceptions_witness :
  (RuntimeError = RuntimeError \/ RuntimeError = AssertionError \/
   RuntimeError = StructError) /\
  (NameError <> OSError /\
   (NameError = NameError ->
    Unbound = Unbound /\
    exists songs s,
      res (read_music_headers (open container_sbng)) = Ok songs /\
      In s songs /\
      slice container_sbng (offset s) 4 = DIGI /\
      slice container_sbng (offset s + 32) 4 = SBNG)).
Proof.
  split.
  - refine (proj1 (parser_exceptions Unbound (open not_a_container)
                                     RuntimeError) _).
    vm_compute. reflexivity.
  - refine (proj2 (parser_exceptions Unbound (open container_sbng)
                                     NameError) _).
    vm_compute. reflexivity.
Defined.

(** X3: the extraction is all or nothing.  With the descriptors read,
    it returns a list exactly when every round returns, and that list
    holds the songs of the rounds in order; it raises [e] exactly when
    some round raises [e] after the rounds before it have returned, and
    the songs of those rounds are lost. *)
Theorem extraction_all_or_nothing (g : f_binding) (f : BinaryIO)
        (songs : list SongInfo) :
  res (read_music_headers f) = Ok songs ->
  (forall out,
      res (get_music_data g f) = Ok out <->
      Forall2 (fun s s' => res (song_body g s (mkFile (data f) 0)) = Ok s')
              songs out) /\
  (forall e,
      res (get_music_data g f) = Raise e <->
      exists l1 s l2 r1,
        songs = l1 ++ s :: l2 /\
        res (for_songs g l1 (mkFile (data f) 0)) = Ok r1 /\
        res (song_body g s (mkFile (data f) 0)) = Raise e).
Proof.
  intros Hs.
  assert (E : res (get_music_data g f)
              = res (for_songs g songs (mkFile (data f) 0))).
  { unfold get_music_data. rewrite res_bind, Hs.
    rewrite (after_file _ f keeps_data_read_music_headers).
    apply for_songs_any_cursor. }
  rewrite E. split.
  - intros out. split.
    + apply for_songs_inv.
    + apply for_songs_returns.
  - intros e. split.
    + apply for_songs_raises.
    + intros (l1 & s & l2 & r1 & -> & H1 & H2).
      rewrite (for_songs_app g l1 (s :: l2) (data f) 0 0).
      rewrite (for_songs_cons g s l2 (data f) 0 0).
      now rewrite H1, H2.
Qed.

(* ================================================================== *)
(** ** Warnings *)

Lemma logged_bind {A B} (m : M A) (k : A -> M B) (f : BinaryIO) :
  logged (bind m k f) =
  match res (m f) with
  | Ok a => logged (m f) ++ logged (k a (after (m f)))
  | Raise e => logged (m f)
  end.
Proof. unfold bind. destruct (res (m f)); reflexivity. Qed.

Lemma silent_bind {A B} (m : M A) (k : A -> M B) :
  silent m -> (forall a, silent (k a)) -> silent (bind m k).
Proof.
  intros Hm Hk f. rewrite logged_bind, Hm.
  destruct (res (m f)); [apply Hk | reflexivity].
Qed.

Lemma silent_ret {A} (a : A) : silent (ret a).
Proof. intros f. reflexivity. Qed.

Lemma silent_raise {A} (e : exn) : silent (@raise A e).
Proof. intros f. reflexivity. Qed.

Lemma silent_seek (off : Z) (w : whence) : silent (seek off w).
Proof. intros f. unfold seek. destruct (_ <? 0); reflexivity. Qed.

Lemma silent_read (n : Z) : silent (read n).
Proof. intros f. unfold read. destruct (n <? -1); reflexivity. Qed.

Lemma silent_unpack_BE_I (b : bytes) : silent (unpack_BE_I b).
Proof. intros f. unfold unpack_BE_I. destruct (_ =? _)%nat; reflexivity. Qed.

Lemma silent_unpack_LE_I (b : bytes) : silent (unpack_LE_I b).
Proof. intros f. unfold unpack_LE_I. destruct (_ =? _)%nat; reflexivity. Qed.

Lemma silent_unpack_LE_3I (b : bytes) : silent (unpack_LE_3I b).
Proof. intros f. unfold unpack_LE_3I. destruct (_ =? _)%nat; reflexivity. Qed.

Lemma silent_py_assert (c : bool) : silent (py_assert c).
Proof. intros f. destruct c; reflexivity. Qed.

Create HintDb silence.
#[local] Hint Resolve silent_ret silent_raise silent_seek silent_read
  silent_unpack_BE_I silent_unpack_LE_I silent_unpack_LE_3I
  silent_py_assert : silence.

Ltac silence :=
  repeat first
    [ solve [auto with silence]
    | apply silent_bind
    | match goal with
      | |- forall _, _ => intro
      | |- silent (if ?c then _ else _) => destruct c
      | |- silent (let '(_, _) := ?x in _) => destruct x
      end ].

Lemma silent_read_songs (hv : Z) (n : nat) :
  forall songs, silent (read_songs hv n songs).
Proof.
  induction n as [|n IH]; intros songs; cbn [read_songs]; silence.
Qed.

#[local] Hint Resolve silent_read_songs : silence.

(** The header reader logs no warning. *)
Lemma silent_read_music_headers : silent read_music_headers.
Proof. unfold read_music_headers. silence. Qed.

Lemma silent_payload_lines (s : SongInfo) (r : Z) :
  silent (payload_lines s r).
Proof. unfold payload_lines. silence. Qed.

(** A round that returns has either logged one warning about its song and
    left rate and payload as they were, or logged nothing and set both. *)
Lemma song_body_outcome (g : f_binding) (song s' : SongInfo) (d : bytes)
      (p : Z) :
  res (song_body g song (mkFile d p)) = Ok s' ->
  (exists w, logged (song_body g song (mkFile d p)) = [w] /\
             warning_song_id w = id song /\
             rate s' = rate song /\ payload s' = payload song) \/
  (logged (song_body g song (mkFile d p)) = [] /\
   exists pl, rate s' = Some (le_val (slice d (offset song + 22) 4)) /\
              payload s' = Some pl).
Proof.
  intros H.
  destruct (Z.lt_ge_cases (offset song) 0) as [Hneg|Hoff].
  { rewrite song_body_neg_offset in H by assumption. discriminate. }
  destruct (bytes_eq_dec (slice d (offset song) 4) DIGI) as [Hdigi|Hdigi].
  2:{ rewrite (song_body_unsupported g song d p) in * by assumption.
      cbn [res logged] in *. injection H as <-. left.
      eexists. now repeat split. }
  destruct (Nat.eq_dec (length (slice d (offset song + 22) 4)) 4)
    as [Hrate|Hrate].
  2:{ rewrite (song_body_rate_short g song d p) in H by assumption.
      discriminate. }
  destruct (bytes_eq_dec (slice d (offset song + 32) 4) SBNG) as [Hsbng|Hsbng].
  - destruct (Nat.eq_dec (length (slice d (offset song + 36) 4)) 4)
      as [Hlen|Hlen].
    2:{ rewrite (song_body_code_short g song d p) in H by assumption.
        discriminate. }
    destruct g.
    { rewrite (song_body_code_unbound Unbound song d p) in H
        by (assumption || reflexivity).
      discriminate. }
    set (L := be_val 0 (slice d (offset song + 36) 4)) in *.
    destruct (bytes_eq_dec (slice d (offset song + 32 + L) 4) SDAT)
      as [Hsdat|Hsdat].
    + rewrite (song_body_code_payload SameFile song d p) in *
        by (assumption || reflexivity).
      apply payload_inv in H as (pl & ->). right.
      split; [apply silent_payload_lines|]. now exists pl.
    + rewrite (song_body_code_missing SameFile song d p) in *
        by (assumption || reflexivity).
      cbn [res logged] in *. injection H as <-. left.
      eexists. now repeat split.
  - destruct (bytes_eq_dec (slice d (offset song + 32) 4) SDAT)
      as [Hsdat|Hsdat].
    + rewrite (song_body_sdat_payload g song d p) in * by assumption.
      apply payload_inv in H as (pl & ->). right.
      split; [apply silent_payload_lines|]. now exists pl.
    + rewrite (song_body_missing g song d p) in * by assumption.
      cbn [res logged] in *. injection H as <-. left.
      eexists. now repeat split.
Qed.

Lemma for_songs_logged (g : f_binding) (d : bytes) (l : list SongInfo) :
  forall (p : Z) (out : list SongInfo),
    Forall fresh l ->
    res (for_songs g l (mkFile d p)) = Ok out ->
    map warning_song_id (logged (for_songs g l (mkFile d p)))
    = map id (filter no_payload out).
Proof.
  induction l as [|s l IH]; intros p out Hf H.
  - cbn in H. injection H as <-. reflexivity.
  - cbn [for_songs] in *.
    rewrite logged_bind. rewrite res_bind in H.
    destruct (res (song_body g s (mkFile d p))) as [s'|e] eqn:E;
      [|discriminate].
    rewrite logged_bind. rewrite res_bind in H.
    rewrite (after_file _ _ (keeps_data_song_body g s)) in *.
    cbn [data] in *.
    set (p1 := pos (after (song_body g s (mkFile d p)))) in *.
    destruct (res (for_songs g l (mkFile d p1))) as [r|e] eqn:E2;
      [|discriminate].
    cbn in H. injection H as <-.
    cbn [ret logged]. rewrite app_nil_r, map_app.
    rewrite (IH p1 r (Forall_inv_tail Hf) E2).
    apply Forall_inv in Hf. destruct Hf as (Hr & Hp & _).
    cbn [filter].
    destruct (song_body_outcome g s s' d p E)
      as [(w & Hw & Hid & Hr' & Hp')|(Hw & pl & Hr' & Hp')].
    + assert (Hn : no_payload s' = true)
        by (unfold no_payload; now rewrite Hp', Hp).
      rewrite Hw, Hn. cbn [map app]. rewrite Hid.
      apply song_body_inv in E as [Hk _].
      unfold descriptor_key in Hk. now injection Hk as -> _ _.
    + assert (Hn : no_payload s' = false)
        by (unfold no_payload; now rewrite Hp').
      rewrite Hw, Hn. reflexivity.
Qed.

(** X4: what the caller can tell from the result.  In every list the
    extraction returns, a song has both rate and payload or neither; and
    the warnings logged during the run name, in order and once each, the
    ids of the songs returned without payload. *)
Theorem skipped_tracks_reported (g : f_binding) (f : BinaryIO)
        (out : list SongInfo) :
  res (get_music_data g f) = Ok out ->
  Forall (fun s => (rate s = None /\ payload s = None) \/
                   (exists r pl, rate s = Some r /\ payload s = Some pl))
         out /\
  map warning_song_id (logged (get_music_data g f))
  = map id (filter no_payload out).
Proof.
  unfold get_music_data. intros H.
  rewrite logged_bind, silent_read_music_headers. cbn [app].
  apply bind_Ok_inv in H as (songs & Hs & H). rewrite Hs.
  pose proof (read_music_headers_fresh _ _ Hs) as Hf.
  rewrite (after_file _ f keeps_data_read_music_headers) in *.
  split.
  - apply for_songs_inv in H. clear Hs.
    induction H as [|s s' l l' Hb _ IH]; [constructor|].
    constructor; [|apply IH; now apply Forall_inv_tail in Hf].
    apply Forall_inv in Hf. destruct Hf as (Hr & Hp & _).
    destruct (song_body_outcome g s s' _ _ Hb)
      as [(w & _ & _ & Hr' & Hp')|(_ & pl & Hr' & Hp')].
    + left. split; congruence.
    + right. eauto.
  - now apply for_songs_logged.
Qed.

(* ================================================================== *)
(** ** Declared sizes below 8 *)

(** Lines 114-116 with a declared size of 7: [file.read(-1)] reads to the
    end of the file. *)
Lemma payload_lines_all (d : bytes) (r : Z) (s : SongInfo) (q : Z) :
  0 <= q ->
  length (slice d (q + 4) 4) = 4%nat ->
  be_val 0 (slice d (q + 4) 4) = 7 ->
  res (payload_lines s r (mkFile d (q + 4)))
  = Ok (set_payload (set_rate s r) (skipn (Z.to_nat (q + 8)) d)).
Proof.
  intros Hq Hlen Hv. unfold payload_lines.
  step (read_4_run d (q + 4) Hlen).
  step (unpack_BE_I_run _ (mkFile d (q + 4 + 4)) Hlen).
  rewrite Hv. replace (q + 4 + 4) with (q + 8) by lia.
  reflexivity.
Qed.

(** Lines 114-116 with a declared size below 7: [file.read] refuses the
    length. *)
Lemma payload_lines_negative (d : bytes) (r : Z) (s : SongInfo) (q : Z) :
  0 <= q ->
  length (slice d (q + 4) 4) = 4%nat ->
  be_val 0 (slice d (q + 4) 4) < 7 ->
  res (payload_lines s r (mkFile d (q + 4))) = Raise ValueError.
Proof.
  intros Hq Hlen Hv. unfold payload_lines.
  step (read_4_run d (q + 4) Hlen).
  step (unpack_BE_I_run _ (mkFile d (q + 4 + 4)) Hlen).
  rewrite res_bind. unfold read.
  destruct (Z.ltb_spec (be_val 0 (slice d (q + 4) 4) - 8) (-1));
    [reflexivity | lia].
Qed.

(** X5: payload chunks that declare less than their own 8 header bytes.
    For a track with [DIGI], [SDAT] at 32 and its size field in place, a
    declared size of 7 makes the round return as payload everything from
    the end of the size field to the end of the file, and a declared size
    of 6 or less makes it raise [ValueError]. *)
Theorem declared_size_below_8 (g : f_binding) (song : SongInfo)
        (f : BinaryIO) :
  let d := data f in
  let off := offset song in
  let declared := be_val 0 (slice d (off + 36) 4) in
  0 <= off ->
  slice d off 4 = DIGI ->
  slice d (off + 32) 4 = SDAT ->
  off + 40 <= Z.of_nat (length d) ->
  (declared = 7 ->
   res (song_body g song f)
   = Ok (set_payload (set_rate song (le_val (slice d (off + 22) 4)))
                     (skipn (Z.to_nat (off + 40)) d))) /\
  (declared < 7 -> res (song_body g song f) = Raise ValueError).
Proof.
  destruct f as [d p]. intros d0 off declared. cbn [data] in d0. subst d0.
  intros Hoff Hdigi Hsdat Hlen.
  assert (Hrate : length (slice d (off + 22) 4) = 4%nat).
  { pose proof (slice_length d (off + 22) 4). lia. }
  assert (Hsize : length (slice d (off + 32 + 4) 4) = 4%nat).
  { pose proof (slice_length d (off + 32 + 4) 4). lia. }
  rewrite (song_body_sdat_payload g song d p Hoff Hdigi Hrate Hsdat).
  subst declared. fold off.
  replace (off + 36) with (off + 32 + 4) by lia.
  replace (off + 40) with (off + 32 + 8) by lia.
  split; intros Hv.
  - now apply payload_lines_all; try lia.
  - now apply payload_lines_negative; try lia.
Qed.

(* ================================================================== *)
(** ** The range of the fields *)

Lemma byte_val_bound (b : byte) : 0 <= byte_val b < 256.
Proof.
  unfold byte_val. pose proof (Byte.to_N_bounded b). lia.
Qed.

Lemma le_val_bound (bs : bytes) :
  0 <= le_val bs < 256 ^ Z.of_nat (length bs).
Proof.
  induction bs as [|b bs IH]; cbn [le_val length].
  - cbn. lia.
  - pose proof (byte_val_bound b).
    rewrite Nat2Z.inj_succ, Z.pow_succ_r by lia. lia.
Qed.

Lemma le_val_u32 (bs : bytes) : (length bs <= 4)%nat -> u32 (le_val bs).
Proof.
  intros H. pose proof (le_val_bound bs) as [H0 H1]. split; [exact H0|].
  eapply Z.lt_le_trans; [exact H1|].
  change 4294967296 with (256 ^ 4). apply Z.pow_le_mono_r; lia.
Qed.

Lemma unpack_LE_3I_u32 (b : bytes) (f : BinaryIO) (i o z : Z) :
  res (unpack_LE_3I b f) = Ok (i, o, z) -> u32 i /\ u32 o /\ u32 z.
Proof.
  unfold unpack_LE_3I. destruct (_ =? _)%nat; cbn [res ret raise]; intros H.
  - injection H as <- <- <-.
    split; [|split].
    + apply (le_val_u32 (firstn 4 b)), firstn_le_length.
    + apply (le_val_u32 (firstn 4 (skipn 4 b))), firstn_le_length.
    + apply (le_val_u32 (firstn 4 (skipn 8 b))), firstn_le_length.
  - discriminate.
Qed.

Lemma read_songs_u32 (hv : Z) (n : nat) :
  forall (acc out : list SongInfo) (f : BinaryIO),
    res (read_songs hv n acc f) = Ok out ->
    Forall (fun s => u32 (id s) /\ u32 (offset s) /\ u32 (size s)) acc ->
    Forall (fun s => u32 (id s) /\ u32 (offset s) /\ u32 (size s)) out.
Proof.
  induction n as [|n IH]; intros acc out f H Hacc.
  - cbn in H. now injection H as <-.
  - cbn [read_songs] in H.
    apply bind_Ok_inv in H as (b & _ & H).
    apply bind_Ok_inv in H as ([[i o] z] & Hu & H).
    apply bind_Ok_inv in H as (u & _ & H).
    apply IH in H; [assumption|].
    apply Forall_app. split; [assumption|].
    constructor; [|constructor].
    cbn. now apply unpack_LE_3I_u32 in Hu.
Qed.

(** X6: every number the parser returns is an unsigned 32-bit value: the
    id, offset and size of every descriptor of the header reader, and the
    id, offset, size and rate of every song of the extraction. *)
Theorem fields_are_u32 (g : f_binding) (f : BinaryIO) :
  (forall songs,
      res (read_music_headers f) = Ok songs ->
      Forall (fun s => u32 (id s) /\ u32 (offset s) /\ u32 (size s)) songs)
  /\
  (forall out,
      res (get_music_data g f) = Ok out ->
      Forall (fun s => u32 (id s) /\ u32 (offset s) /\ u32 (size s) /\
                       forall r, rate s = Some r -> u32 r) out).
Proof.
  assert (Hh : forall songs,
             res (read_music_headers f) = Ok songs ->
             Forall (fun s => u32 (id s) /\ u32 (offset s) /\ u32 (size s))
                    songs).
  { unfold read_music_headers. intros songs H.
    apply bind_Ok_inv in H as (u & _ & H).
    apply bind_Ok_inv in H as (magic & _ & H).
    destruct (negb (bytes_eqb magic SONG)); [discriminate|].
    repeat (apply bind_Ok_inv in H as (? & _ & H)).
    apply read_songs_u32 in H; [assumption | constructor]. }
  split; [exact Hh|].
  unfold get_music_data. intros out H.
  apply bind_Ok_inv in H as (songs & Hs & H).
  pose proof (Hh _ Hs) as Hu.
  pose proof (read_music_headers_fresh _ _ Hs) as Hf.
  rewrite (after_file _ f keeps_data_read_music_headers) in H.
  apply for_songs_inv in H. clear Hs.
  induction H as [|s s' l l' Hb _ IH]; [constructor|].
  constructor.
  - apply Forall_inv in Hu, Hf. destruct Hf as (Hr & _).
    pose proof (song_body_inv _ _ _ _ _ Hb) as [Hk _].
    unfold descriptor_key in Hk. injection Hk as -> -> ->.
    destruct Hu as (H1 & H2 & H3).
    split; [exact H1|]. split; [exact H2|]. split; [exact H3|].
    intros r Hsome.
    destruct (song_body_outcome _ _ _ _ _ Hb)
      as [(w & _ & _ & Hr' & _)|(_ & pl & Hr' & _)]; [congruence|].
    rewrite Hr' in Hsome. injection Hsome as <-.
    apply le_val_u32. unfold slice. apply firstn_le_length.
  - apply IH; [exact (Forall_inv_tail Hu) | exact (Forall_inv_tail Hf)].
Qed.

(* ================================================================== *)
(** ** The fields the extraction does not read *)

Lemma payload_lines_with_id_size (s : SongInfo) (r i z : Z) (f : BinaryIO) :
  res (payload_lines (with_id_size s i z) r f) =
  match res (payload_lines s r f) with
  | Ok s' => Ok (with_id_size s' i z)
  | Raise e => Raise e
  end.
Proof.
  unfold payload_lines. rewrite !res_bind.
  destruct (res (read 4 f)) as [b|e]; [|reflexivity].
  rewrite !res_bind.
  destruct (res (unpack_BE_I b _)) as [n|e]; [|reflexivity].
  rewrite !res_bind.
  destruct (res (read (n - 8) _)) as [pl|e]; reflexivity.
Qed.

(** X7: the id and the declared size of a descriptor are carried through
    the extraction and never read.  A round run on a descriptor with
    another id and another size does the same as the round on the
    original: it raises the same exception, or returns the same song but
    for these two fields; in particular the length of the payload never
    comes from the size of the descriptor. *)
Theorem id_and_size_not_read (g : f_binding) (s : SongInfo) (i z : Z)
        (f : BinaryIO) :
  res (song_body g (with_id_size s i z) f) =
  match res (song_body g s f) with
  | Ok s' => Ok (with_id_size s' i z)
  | Raise e => Raise e
  end.
Proof.
  destruct f as [d p]. set (s2 := with_id_size s i z).
  destruct (Z.lt_ge_cases (offset s) 0) as [Hneg|Hoff].
  { now rewrite (song_body_neg_offset g s2), (song_body_neg_offset g s). }
  destruct (bytes_eq_dec (slice d (offset s) 4) DIGI) as [Hdigi|Hdigi].
  2:{ rewrite (song_body_unsupported g s2 d p Hoff Hdigi).
      now rewrite (song_body_unsupported g s d p Hoff Hdigi). }
  destruct (Nat.eq_dec (length (slice d (offset s + 22) 4)) 4)
    as [Hrate|Hrate].
  2:{ rewrite (song_body_rate_short g s2 d p Hoff Hdigi Hrate).
      now rewrite (song_body_rate_short g s d p Hoff Hdigi Hrate). }
  destruct (bytes_eq_dec (slice d (offset s + 32) 4) SBNG) as [Hsbng|Hsbng].
  - destruct (Nat.eq_dec (length (slice d (offset s + 36) 4)) 4)
      as [Hlen|Hlen].
    2:{ rewrite (song_body_code_short g s2 d p Hoff Hdigi Hrate Hsbng Hlen).
        now rewrite (song_body_code_short g s d p Hoff Hdigi Hrate Hsbng
                                          Hlen). }
    destruct g.
    { rewrite (song_body_code_unbound Unbound s2 d p Hoff Hdigi Hrate Hsbng
                                      Hlen eq_refl).
      now rewrite (song_body_code_unbound Unbound s d p Hoff Hdigi Hrate
                                          Hsbng Hlen eq_refl). }
    set (L := be_val 0 (slice d (offset s + 36) 4)) in *.
    destruct (bytes_eq_dec (slice d (offset s + 32 + L) 4) SDAT)
      as [Hsdat|Hsdat].
    + rewrite (song_body_code_payload SameFile s2 d p Hoff Hdigi Hrate
                                      Hsbng Hlen eq_refl Hsdat).
      rewrite (song_body_code_payload SameFile s d p Hoff Hdigi Hrate
                                      Hsbng Hlen eq_refl Hsdat).
      apply (payload_lines_with_id_size (set_sbng_code_offset s 40)).
    + rewrite (song_body_code_missing SameFile s2 d p Hoff Hdigi Hrate
                                      Hsbng Hlen eq_refl Hsdat).
      now rewrite (song_body_code_missing SameFile s d p Hoff Hdigi Hrate
                                          Hsbng Hlen eq_refl Hsdat).
  - destruct (bytes_eq_dec (slice d (offset s + 32) 4) SDAT)
      as [Hsdat|Hsdat].
    + rewrite (song_body_sdat_payload g s2 d p Hoff Hdigi Hrate Hsdat).
      rewrite (song_body_sdat_payload g s d p Hoff Hdigi Hrate Hsdat).
      apply payload_lines_with_id_size.
    + rewrite (song_body_missing g s2 d p Hoff Hdigi Hrate Hsbng Hsdat).
      now rewrite (song_body_missing g s d p Hoff Hdigi Hrate Hsbng Hsdat).
Qed.

(* ================================================================== *)
(** ** The bytes the header reader does not read *)

Lemma descriptor_at_slice (d : bytes) (p : Z) :
  0 <= p ->
  descriptor_at d p =
  new_SongInfo (le_val (firstn 4 (slice d p 12)))
               (le_val (firstn 4 (skipn 4 (slice d p 12))))
               (le_val (firstn 4 (skipn 8 (slice d p 12)))).
Proof.
  intros Hp. unfold descriptor_at.
  pose proof (slice_slice d p 12 0 4) as H0.
  pose proof (slice_slice d p 12 4 4) as H4.
  pose proof (slice_slice d p 12 8 4) as H8.
  change (Z.to_nat 4) with 4%nat in *. change (Z.to_nat 8) with 8%nat in *.
  change (Z.to_nat 0) with 0%nat in *. cbn [skipn] in H0.
  rewrite H0, H4, H8 by lia. now rewrite Z.add_0_r.
Qed.

Lemma table_at_ext (d1 d2 : bytes) (st : Z) (n : nat) :
  forall p : Z,
    0 <= p -> 0 <= st ->
    (forall i, (i < n)%nat ->
               slice d1 (p + st * Z.of_nat i) 12
               = slice d2 (p + st * Z.of_nat i) 12) ->
    table_at d1 p st n = table_at d2 p st n.
Proof.
  induction n as [|n IH]; intros p Hp Hst H; [reflexivity|].
  cbn [table_at].
  pose proof (H O ltac:(lia)) as H0. change (Z.of_nat 0) with 0 in H0.
  rewrite Z.mul_0_r, Z.add_0_r in H0.
  rewrite !descriptor_at_slice by assumption. rewrite H0.
  rewrite (IH (p + st)); [reflexivity | lia | lia |].
  intros i Hi. specialize (H (S i) ltac:(lia)).
  replace (p + st + st * Z.of_nat i) with (p + st * Z.of_nat (S i)) by lia.
  exact H.
Qed.

(** X8: the header reader reads the outer magic, the twelve bytes from
    offset 8 (sub-header magic, header length, track count) and the twelve
    leading bytes of each record, and nothing else.  Two files that agree
    on these give the same descriptors or the same exception, whatever
    their total-size field, the bytes between header and table, the
    trailing fields of the records and the tracks hold. *)
Theorem header_reads_only_its_fields (f1 f2 : BinaryIO) :
  let d1 := data f1 in
  let d2 := data f2 in
  let n := Z.to_nat (le_val (slice d1 16 4)) in
  let start := if be_val 0 (slice d1 12 4) =? 40 then 56 else 20 in
  let stride := if be_val 0 (slice d1 12 4) =? 40 then 21 else 25 in
  slice d1 0 4 = slice d2 0 4 ->
  slice d1 8 12 = slice d2 8 12 ->
  (forall i, (i < n)%nat ->
             slice d1 (start + stride * Z.of_nat i) 12
             = slice d2 (start + stride * Z.of_nat i) 12) ->
  res (read_music_headers f1) = res (read_music_headers f2).
Proof.
  destruct f1 as [d1 p1], f2 as [d2 p2].
  intros e1 e2 n start stride. cbn [data] in e1, e2. subst e1 e2.
  intros H0 Hh Hrec.
  assert (Hsub : forall a, 0 <= a -> a + 4 <= 12 ->
                           slice d1 (8 + a) 4 = slice d2 (8 + a) 4).
  { intros a Ha Ham.
    rewrite <- (slice_slice d1 8 12 a 4), <- (slice_slice d2 8 12 a 4)
      by lia.
    now rewrite Hh. }
  pose proof (Hsub 0 ltac:(lia) ltac:(lia)) as H8.
  pose proof (Hsub 4 ltac:(lia) ltac:(lia)) as H12.
  pose proof (Hsub 8 ltac:(lia) ltac:(lia)) as H16.
  change (8 + 0) with 8 in H8. change (8 + 4) with 12 in H12.
  change (8 + 8) with 16 in H16.
  destruct (bytes_eq_dec (slice d1 0 4) SONG) as [E0|E0].
  2:{ rewrite (read_music_headers_not_song d1 p1 E0).
      rewrite H0 in E0.
      now rewrite (read_music_headers_not_song d2 p2 E0). }
  assert (E0' : slice d2 0 4 = SONG) by congruence.
  destruct (bytes_eq_dec (slice d1 8 4) SGHD) as [E8|E8].
  2:{ rewrite (read_music_headers_not_sghd d1 p1 E0 E8).
      rewrite H8 in E8.
      now rewrite (read_music_headers_not_sghd d2 p2 E0' E8). }
  assert (E8' : slice d2 8 4 = SGHD) by congruence.
  destruct (Nat.eq_dec (length (slice d1 12 4)) 4) as [E12|E12].
  2:{ rewrite (read_music_headers_short_len d1 p1 E0 E8 E12).
      rewrite H12 in E12.
      now rewrite (read_music_headers_short_len d2 p2 E0' E8' E12). }
  assert (E12' : length (slice d2 12 4) = 4%nat) by congruence.
  destruct (Nat.eq_dec (length (slice d1 16 4)) 4) as [E16|E16].
  2:{ rewrite (read_music_headers_short_count d1 p1 E0 E8 E12 E16).
      rewrite H16 in E16.
      now rewrite (read_music_headers_short_count d2 p2 E0' E8' E12' E16). }
  assert (E16' : length (slice d2 16 4) = 4%nat) by congruence.
  pose proof (read_music_headers_run d1 p1 E0 E8 E12 E16) as R1.
  pose proof (read_music_headers_run d2 p2 E0' E8' E12' E16') as R2.
  cbv zeta in R1, R2. rewrite <- H12, <- H16 in R2.
  fold n start stride in R1, R2.
  assert (Hstart : 0 <= start) by (subst start; destruct (_ =? 40); lia).
  assert (Hstride : 0 <= stride)
    by (subst stride; destruct (_ =? 40); lia).
  rewrite <- (table_at_ext d1 d2 stride n start Hstart Hstride Hrec) in R2.
  destruct (table_at d1 start stride n) as [l|e].
  - now rewrite R1, R2.
  - now rewrite R1, R2.
Qed.

(* ================================================================== *)
(** ** Instances on the sample containers *)

Lemma cut_table_refused_witness :
  res (read_music_headers (open container_cut_header)) = Raise StructError /\
  res (read_music_headers (open container_cut_table)) = Raise StructError.
Proof.
  split.
  - refine (proj1 (cut_table_refused (open container_cut_header) _ _) _).
    + reflexivity.
    + reflexivity.
    + vm_compute. reflexivity.
  - refine (proj2 (proj2 (cut_table_refused (open container_cut_table) _ _)
                         _) _ _).
    + reflexivity.
    + reflexivity.
    + vm_compute. discriminate.
    + vm_compute. discriminate.
    + vm_compute. reflexivity.
Defined.

Lemma extraction_all_or_nothing_witness :
  (forall out,
      res (get_music_data Unbound (open container_cut_rate)) = Ok out <->
      Forall2 (fun s s' =>
                 res (song_body Unbound s (mkFile container_cut_rate 0))
                 = Ok s')
              [new_SongInfo 7 98 45; new_SongInfo 8 143 14] out) /\
  (forall e,
      res (get_music_data Unbound (open container_cut_rate)) = Raise e <->
      exists l1 s l2 r1,
        [new_SongInfo 7 98 45; new_SongInfo 8 143 14] = l1 ++ s :: l2 /\
        res (for_songs Unbound l1 (mkFile container_cut_rate 0)) = Ok r1 /\
        res (song_body Unbound s (mkFile container_cut_rate 0)) = Raise e).
Proof.
  refine (extraction_all_or_nothing
            Unbound (open container_cut_rate)
            [new_SongInfo 7 98 45; new_SongInfo 8 143 14] _).
  vm_compute. reflexivity.
Defined.

Lemma skipped_tracks_reported_witness :
  Forall (fun s => (rate s = None /\ payload s = None) \/
                   (exists r pl, rate s = Some r /\ payload s = Some pl))
         [mkSongInfo 7 98 45 (Some 11025) (Some hello) (-1);
          mkSongInfo 8 143 40 None None (-1)] /\
  map warning_song_id (logged (get_music_data Unbound (open container_v2)))
  = map id (filter no_payload
                   [mkSongInfo 7 98 45 (Some 11025) (Some hello) (-1);
                    mkSongInfo 8 143 40 None None (-1)]).
Proof.
  refine (skipped_tracks_reported Unbound (open container_v2) _ _).
  vm_compute. reflexivity.
Defined.

Lemma declared_size_below_8_witness :
  res (song_body Unbound (new_SongInfo 7 77 45) (open container_size_7))
  = Ok (set_payload
          (set_rate (new_SongInfo 7 77 45)
                    (le_val (slice container_size_7 (77 + 22) 4)))
          (skipn (Z.to_nat (77 + 40)) container_size_7)) /\
  res (song_body Unbound (new_SongInfo 7 77 45) (open container_size_6))
  = Raise ValueError.
Proof.
  split.
  - refine (proj1 (declared_size_below_8
                     Unbound (new_SongInfo 7 77 45) (open container_size_7)
                     _ _ _ _) _).
    + cbn. lia.
    + reflexivity.
    + reflexivity.
    + vm_compute. discriminate.
    + reflexivity.
  - refine (proj2 (declared_size_below_8
                     Unbound (new_SongInfo 7 77 45) (open container_size_6)
                     _ _ _ _) _).
    + cbn. lia.
    + reflexivity.
    + reflexivity.
    + vm_compute. discriminate.
    + vm_compute. reflexivity.
Defined.

Lemma header_reads_only_its_fields_witness :
  res (read_music_headers (open container_v2))
  = res (read_music_headers (mkFile container_v2_noise 5)).
Proof.
  refine (header_reads_only_its_fields
            (open container_v2) (mkFile container_v2_noise 5) _ _ _).
  - reflexivity.
  - reflexivity.
  - intros [|[|i]] Hi; [reflexivity | reflexivity |].
    cbv zeta in Hi. exfalso. revert Hi. vm_compute. lia.
Defined.

(* ================================================================== *)
(** ** Moving a track *)

Lemma payload_lines_moved (s : SongInfo) (r o : Z) (f : BinaryIO) :
  res (payload_lines (moved s o) r f) =
  match res (payload_lines s r f) with
  | Ok s' => Ok (moved s' o)
  | Raise e => Raise e
  end.
Proof.
  unfold payload_lines. rewrite !res_bind.
  destruct (res (read 4 f)) as [b|e]; [|reflexivity].
  rewrite !res_bind.
  destruct (res (unpack_BE_I b _)) as [n|e]; [|reflexivity].
  rewrite !res_bind.
  destruct (res (read (n - 8) _)) as [pl|e]; reflexivity.
Qed.

Lemma slice_of_tail (d : bytes) (o a m : Z) :
  0 <= o -> 0 <= a ->
  slice d (o + a) m = firstn (Z.to_nat m) (skipn (Z.to_nat a)
                                                 (skipn (Z.to_nat o) d)).
Proof.
  intros Ho Ha. unfold slice. rewrite skipn_skipn.
  now replace (Z.to_nat a + Z.to_nat o)%nat with (Z.to_nat (o + a)) by lia.
Qed.

Lemma skipn_of_tail (d : bytes) (o a : Z) :
  0 <= o -> 0 <= a ->
  skipn (Z.to_nat (o + a)) d = skipn (Z.to_nat a) (skipn (Z.to_nat o) d).
Proof.
  intros Ho Ha. rewrite skipn_skipn.
  now replace (Z.to_nat a + Z.to_nat o)%nat with (Z.to_nat (o + a)) by lia.
Qed.

(** X9: a round reads nothing before the offset of its track, and
    reads the track relative to that offset.  If the bytes of [d2] from
    [o] on are the bytes of [d1] from the offset of [s] on, the round on
    the descriptor moved to [o] in [d2] raises what the round on [s] in
    [d1] raises, or returns the same song but for the offset. *)
Theorem track_can_be_moved (g : f_binding) (s : SongInfo) (o : Z)
        (f1 f2 : BinaryIO) :
  0 <= offset s -> 0 <= o ->
  skipn (Z.to_nat (offset s)) (data f1) = skipn (Z.to_nat o) (data f2) ->
  res (song_body g (moved s o) f2) =
  match res (song_body g s f1) with
  | Ok s' => Ok (moved s' o)
  | Raise e => Raise e
  end.
Proof.
  destruct f1 as [d1 p1], f2 as [d2 p2]. cbn [data].
  intros Hoff Ho Htail. set (s2 := moved s o).
  assert (Hsl : forall a m, 0 <= a ->
                            slice d2 (o + a) m = slice d1 (offset s + a) m).
  { intros a m Ha. rewrite !slice_of_tail by assumption. now rewrite Htail. }
  assert (Hsk : forall a, 0 <= a ->
                          skipn (Z.to_nat (offset s + a)) d1
                          = skipn (Z.to_nat (o + a)) d2).
  { intros a Ha. rewrite !skipn_of_tail by assumption. now rewrite Htail. }
  pose proof (Hsl 0 4 ltac:(lia)) as H0. rewrite !Z.add_0_r in H0.
  pose proof (Hsl 22 4 ltac:(lia)) as H22.
  pose proof (Hsl 32 4 ltac:(lia)) as H32.
  pose proof (Hsl 36 4 ltac:(lia)) as H36.
  assert (Hoff2 : 0 <= offset s2) by exact Ho.
  destruct (bytes_eq_dec (slice d1 (offset s) 4) DIGI) as [Hd|Hd].
  2:{ rewrite (song_body_unsupported g s d1 p1 Hoff Hd).
      rewrite <- H0 in Hd.
      now rewrite (song_body_unsupported g s2 d2 p2 Hoff2 Hd). }
  assert (Hd2 : slice d2 (offset s2) 4 = DIGI) by (change (offset s2) with o; congruence).
  destruct (Nat.eq_dec (length (slice d1 (offset s + 22) 4)) 4) as [Hr|Hr].
  2:{ rewrite (song_body_rate_short g s d1 p1 Hoff Hd Hr).
      rewrite <- H22 in Hr.
      now rewrite (song_body_rate_short g s2 d2 p2 Hoff2 Hd2 Hr). }
  assert (Hr2 : length (slice d2 (offset s2 + 22) 4) = 4%nat)
    by (change (offset s2) with o; congruence).
  destruct (bytes_eq_dec (slice d1 (offset s + 32) 4) SBNG) as [Hb|Hb].
  - assert (Hb2 : slice d2 (offset s2 + 32) 4 = SBNG) by (change (offset s2) with o; congruence).
    destruct (Nat.eq_dec (length (slice d1 (offset s + 36) 4)) 4) as [Hl|Hl].
    2:{ rewrite (song_body_code_short g s d1 p1 Hoff Hd Hr Hb Hl).
        rewrite <- H36 in Hl.
        now rewrite (song_body_code_short g s2 d2 p2 Hoff2 Hd2 Hr2 Hb2 Hl). }
    assert (Hl2 : length (slice d2 (offset s2 + 36) 4) = 4%nat)
      by (change (offset s2) with o; congruence).
    destruct g.
    { rewrite (song_body_code_unbound Unbound s d1 p1 Hoff Hd Hr Hb Hl
                                      eq_refl).
      now rewrite (song_body_code_unbound Unbound s2 d2 p2 Hoff2 Hd2 Hr2
                                          Hb2 Hl2 eq_refl). }
    set (L := be_val 0 (slice d1 (offset s + 36) 4)).
    assert (HL : 0 <= L) by (apply be_val_nonneg; lia).
    assert (EL : be_val 0 (slice d2 (offset s2 + 36) 4) = L)
      by (change (offset s2) with o; now rewrite H36).
    pose proof (Hsl (32 + L) 4 ltac:(lia)) as Ht.
    rewrite !Z.add_assoc in Ht.
    destruct (bytes_eq_dec (slice d1 (offset s + 32 + L) 4) SDAT) as [Ha|Ha].
    + assert (Ha2 : slice d2 (offset s2 + 32
                              + be_val 0 (slice d2 (offset s2 + 36) 4)) 4
                    = SDAT)
        by (rewrite EL; change (offset s2) with o; congruence).
      rewrite (song_body_code_payload SameFile s d1 p1 Hoff Hd Hr Hb Hl
                                      eq_refl Ha).
      rewrite (song_body_code_payload SameFile s2 d2 p2 Hoff2 Hd2 Hr2 Hb2
                                      Hl2 eq_refl Ha2).
      rewrite EL. fold L. change (offset s2) with o. rewrite H22.
      change (set_sbng_code_offset s2 40)
        with (moved (set_sbng_code_offset s 40) o).
      rewrite (payload_lines_moved (set_sbng_code_offset s 40)).
      rewrite (payload_lines_tail _ _ d2 d1 (o + 36 + L)
                                  (offset s + 36 + L)); try lia.
      * reflexivity.
      * replace (o + 36 + L) with (o + (36 + L)) by lia.
        replace (offset s + 36 + L) with (offset s + (36 + L)) by lia.
        symmetry. apply Hsk. lia.
    + assert (Ha2 : slice d2 (offset s2 + 32
                              + be_val 0 (slice d2 (offset s2 + 36) 4)) 4
                    <> SDAT)
        by (rewrite EL; change (offset s2) with o; congruence).
      rewrite (song_body_code_missing SameFile s d1 p1 Hoff Hd Hr Hb Hl
                                      eq_refl Ha).
      now rewrite (song_body_code_missing SameFile s2 d2 p2 Hoff2 Hd2 Hr2
                                          Hb2 Hl2 eq_refl Ha2).
  - assert (Hb2 : slice d2 (offset s2 + 32) 4 <> SBNG) by (change (offset s2) with o; congruence).
    destruct (bytes_eq_dec (slice d1 (offset s + 32) 4) SDAT) as [Ha|Ha].
    + assert (Ha2 : slice d2 (offset s2 + 32) 4 = SDAT) by (change (offset s2) with o; congruence).
      rewrite (song_body_sdat_payload g s d1 p1 Hoff Hd Hr Ha).
      rewrite (song_body_sdat_payload g s2 d2 p2 Hoff2 Hd2 Hr2 Ha2).
      change (offset s2) with o. rewrite H22. unfold s2.
      rewrite payload_lines_moved.
      rewrite (payload_lines_tail _ _ d2 d1 (o + 36) (offset s + 36));
        try lia.
      * reflexivity.
      * symmetry. apply Hsk. lia.
    + assert (Ha2 : slice d2 (offset s2 + 32) 4 <> SDAT)
        by (change (offset s2) with o; congruence).
      rewrite (song_body_missing g s d1 p1 Hoff Hd Hr Hb Ha).
      now rewrite (song_body_missing g s2 d2 p2 Hoff2 Hd2 Hr2 Hb2 Ha2).
Qed.

Lemma track_can_be_moved_witness :
  res (song_body Unbound (moved (new_SongInfo 7 77 45) 3)
                 (open (zeros 3 ++ sample_digi 11025 ++ sample_sdat 13 hello)))
  = match res (song_body Unbound (new_SongInfo 7 77 45)
                         (open container_plain)) with
    | Ok s' => Ok (moved s' 3)
    | Raise e => Raise e
    end.
Proof.
  refine (track_can_be_moved
            Unbound (new_SongInfo 7 77 45) 3 (open container_plain)
            (open (zeros 3 ++ sample_digi 11025 ++ sample_sdat 13 hello))
            _ _ _).
  - cbn. lia.
  - lia.
  - reflexivity.
Defined.

Local Open Scope string_scope.
Local Open Scope list_scope.

(* ================================================================== *)
(** ** Strings *)

Lemma list_ascii_of_append (a b : string) :
  list_ascii_of_string (String.append a b)
  = list_ascii_of_string a ++ list_ascii_of_string b.
Proof.
  induction a as [|c a IH]; cbn; [reflexivity | now rewrite IH].
Qed.

Lemma list_ascii_of_string_inj (a b : string) :
  list_ascii_of_string a = list_ascii_of_string b -> a = b.
Proof.
  intros H. rewrite <- (string_of_list_ascii_of_string a).
  rewrite <- (string_of_list_ascii_of_string b). now rewrite H.
Qed.

Lemma append_inv_head (p a b : string) :
  String.append p a = String.append p b -> a = b.
Proof.
  intros H. apply list_ascii_of_string_inj.
  apply (f_equal list_ascii_of_string) in H.
  rewrite !list_ascii_of_append in H. now apply app_inv_head in H.
Qed.

Lemma append_inv_tail (a b s : string) :
  String.append a s = String.append b s -> a = b.
Proof.
  intros H. apply list_ascii_of_string_inj.
  apply (f_equal list_ascii_of_string) in H.
  rewrite !list_ascii_of_append in H. now apply app_inv_tail in H.
Qed.

(** [str] is injective on integers. *)
Lemma str_int_inj (a b : Z) : str_int a = str_int b -> a = b.
Proof.
  unfold str_int. intros H.
  apply (f_equal DecimalString.NilEmpty.int_of_string) in H.
  rewrite !DecimalString.NilEmpty.isi in H. injection H as H.
  apply (f_equal Z.of_int) in H. now rewrite !DecimalZ.of_to in H.
Qed.

(** [str] of an integer is never the empty string. *)
Lemma str_int_nonempty (a : Z) : str_int a <> "".
Proof.
  intros H. assert (E : str_int a = str_int 0 -> False).
  { intros E. apply str_int_inj in E. subst a. discriminate H. }
  unfold str_int in H.
  apply (f_equal DecimalString.NilEmpty.int_of_string) in H.
  rewrite DecimalString.NilEmpty.isi in H. cbn in H. injection H as H.
  apply (f_equal Z.of_int) in H. rewrite DecimalZ.of_to in H. cbn in H.
  subst a. now apply E.
Qed.

Lemma append_nonempty (a b : string) : b <> "" -> String.append a b <> "".
Proof.
  intros Hb H. destruct a; cbn in H; [contradiction | discriminate].
Qed.

(* ================================================================== *)
(** ** Properties of the driver *)

Section DriverProperties.

Variable Path : Type.
Variable joinpath : Path -> string -> Path.
Variable resolve_str : Path -> string.
Variable py_int : string -> option Z.

(** X10: the names of the output files.  Numbered from 1, the
    default, two songs of different indices never get the same name,
    whatever their ids; named after their ids, two songs get the same
    name exactly when they have the same id. *)
Theorem output_names (a : arguments Path) (i j : Z) (s1 s2 : SongInfo) :
  (use_song_ids a = false ->
   (output_name a i s1 = output_name a j s2 <-> i = j)) /\
  (use_song_ids a = true ->
   (output_name a i s1 = output_name a j s2 <-> id s1 = id s2)).
Proof.
  unfold output_name, song_name. split; intros Hu; rewrite Hu; split.
  - intros H. apply append_inv_head, append_inv_tail, str_int_inj in H. lia.
  - now intros ->.
  - intros H. now apply append_inv_head, append_inv_tail, str_int_inj in H.
  - now intros ->.
Qed.

Lemma write_pcm_to_file_run (output_path : Path) (pl : option bytes)
      (sr : option Z) (opts : option (list string)) :
  stdin (write_pcm_to_file resolve_str output_path pl sr opts) = pl /\
  firstn 10 (argv (write_pcm_to_file resolve_str output_path pl sr opts))
  = ffmpeg_head sr /\
  last (argv (write_pcm_to_file resolve_str output_path pl sr opts)) ""
  = resolve_str output_path.
Proof.
  unfold write_pcm_to_file. cbn [stdin argv].
  split; [reflexivity|]. split; [reflexivity|].
  rewrite app_assoc. apply last_last.
Qed.

(** What one round of the loop runs, when it runs something. *)
Lemma encode_song_run (a : arguments Path) (i : Z) (song : SongInfo)
      (r : invocation) :
  encode_song joinpath resolve_str a i song = inl r ->
  stdin r = payload song /\
  firstn 10 (argv r) = ffmpeg_head (rate song) /\
  last (argv r) ""
  = resolve_str (joinpath (output_dir a) (output_name a i song)).
Proof.
  unfold encode_song. destruct (String.eqb (format a) "mp3").
  - unfold write_pcm_to_mp3. destruct (mp3_quality a); intros H;
      try discriminate; injection H as <-; apply write_pcm_to_file_run.
  - intros H. injection H as <-. apply write_pcm_to_file_run.
Qed.

Lemma encode_song_no_error (a : arguments Path) (i : Z) (song : SongInfo) :
  mp3_quality a <> QOther ->
  exists r, encode_song joinpath resolve_str a i song = inl r.
Proof.
  intros Hq. unfold encode_song. destruct (String.eqb (format a) "mp3").
  - unfold write_pcm_to_mp3. destruct (mp3_quality a); eauto.
    contradiction.
  - eauto.
Qed.

Lemma encode_songs_runs (a : arguments Path) (songs : list SongInfo) :
  mp3_quality a <> QOther ->
  forall i,
    snd (encode_songs joinpath resolve_str a i songs) = None /\
    length (fst (encode_songs joinpath resolve_str a i songs))
    = length songs /\
    forall k s,
      nth_error songs k = Some s ->
      exists r,
        nth_error (fst (encode_songs joinpath resolve_str a i songs)) k
        = Some r /\
        encode_song joinpath resolve_str a (i + Z.of_nat k) s = inl r.
Proof.
  intros Hq. induction songs as [|s l IH]; intros i.
  - cbn. repeat split. intros [|k] s H; discriminate.
  - cbn [encode_songs].
    destruct (encode_song_no_error a i s Hq) as (r & Hr). rewrite Hr.
    destruct (IH (i + 1)) as (He & Hl & Hn).
    destruct (encode_songs joinpath resolve_str a (i + 1) l)
      as [runs e]. cbn [fst snd] in *.
    split; [exact He|]. split; [cbn; now rewrite Hl|].
    intros [|k] s' H; cbn [nth_error] in *.
    + injection H as <-. exists r. split; [reflexivity|].
      now rewrite Z.add_0_r.
    + destruct (Hn k s' H) as (r' & H1 & H2). exists r'.
      split; [exact H1|].
      now replace (i + Z.of_nat (S k)) with (i + 1 + Z.of_nat k) by lia.
Qed.

(** X11: the driver runs one process per song the extraction returns,
    in order, the skipped songs included.  When the extraction returns
    and the quality is of a type the encoder accepts, the loop ends
    without exception and has run as many processes as there are songs;
    the process of the song of index [k] gets the payload of the song on
    its standard input, starts with the ten fixed arguments that carry
    [str(song.rate)] after [-ar], and ends with the resolved path of the
    file named after the song.  For a skipped song that is the rate
    [None] and no input at all. *)
Theorem one_process_per_song (a : arguments Path) (game_data : bytes)
        (runs : list invocation) (e : option driver_exn) :
  mp3_quality a <> QOther ->
  main joinpath resolve_str a game_data = Ok (runs, e) ->
  e = None /\
  exists out,
    res (get_music_data SameFile (open game_data)) = Ok out /\
    length runs = length out /\
    forall k s,
      nth_error out k = Some s ->
      exists r,
        nth_error runs k = Some r /\
        stdin r = payload s /\
        firstn 10 (argv r) = ffmpeg_head (rate s) /\
        last (argv r) ""
        = resolve_str (joinpath (output_dir a)
                                (output_name a (Z.of_nat k) s)) /\
        (payload s = None -> rate s = None ->
         stdin r = None /\ nth_error (argv r) 7 = Some "None").
Proof.
  intros Hq. unfold main.
  destruct (res (get_music_data SameFile (open game_data))) as [out|x];
    [|discriminate].
  intros H. injection H as H.
  destruct (encode_songs_runs a out Hq 0) as (He & Hl & Hn).
  rewrite H in He, Hl, Hn. cbn [fst snd] in *.
  split; [exact He|]. exists out. split; [reflexivity|].
  split; [exact Hl|].
  intros k s Hs. destruct (Hn k s Hs) as (r & H1 & H2).
  exists r. split; [exact H1|].
  cbn [Z.add] in H2.
  destruct (encode_song_run a _ s r H2) as (Hi & Hh & Hp).
  split; [exact Hi|]. split; [exact Hh|]. split; [exact Hp|].
  intros Hpl Hr. split; [congruence|].
  rewrite Hr in Hh.
  assert (E : nth_error (firstn 10 (argv r)) 7 = Some "None")
    by now rewrite Hh.
  rewrite nth_error_firstn in E. exact E.
Qed.

End DriverProperties.

Lemma output_names_witness :
  output_name (mkArguments string "out" "wav" "Song" false (QInt 1)
                           "Song " None None None None)
              0 (new_SongInfo 7 98 45)
  = output_name (mkArguments string "out" "wav" "Song" false (QInt 1)
                             "Song " None None None None)
                1 (new_SongInfo 7 98 45)
  <-> 0 = 1.
Proof.
  refine (proj1 (output_names string
                   (mkArguments string "out" "wav" "Song" false (QInt 1)
                                "Song " None None None None)
                   0 1 (new_SongInfo 7 98 45) (new_SongInfo 7 98 45)) _).
  reflexivity.
Defined.


Section DriverMp3.

Variable Path : Type.
Variable joinpath : Path -> string -> Path.
Variable resolve_str : Path -> string.
Variable py_int : string -> option Z.

Lemma title_always_set (a : arguments Path) (i : Z) (song : SongInfo) :
  truthy_str (Some (String.append (title_prefix a) (song_name a i song)))
  = true.
Proof.
  unfold truthy_str. apply negb_true_iff, String.eqb_neq.
  apply append_nonempty, str_int_nonempty.
Qed.

Lemma title_metadata (a : arguments Path) (i : Z) (song : SongInfo) :
  metadata_str "title"
    (Some (String.append (title_prefix a) (song_name a i song)))
  = ["-metadata";
     String.append "title="
       (String.append (title_prefix a) (song_name a i song))].
Proof.
  unfold metadata_str. now rewrite title_always_set.
Qed.

(** X12: the arguments of an MP3 run.  With the format [mp3], a
    quality taken from the command line and an index that is not
    negative, the round never raises [TypeError] and runs [ffmpeg] with:
    the ten fixed arguments; the codec; [-q:a n] when the quality is the
    default 1 or a string that [int] accepts, [-b:a s] for any other
    string; the title, always, even with an empty title prefix; artist,
    album and date when given and not empty; the track number, always;
    the comment when given and not empty; and the resolved path. *)
Theorem mp3_arguments (a : arguments Path) (i : Z) (song : SongInfo)
        (given : option string) :
  format a = "mp3" ->
  mp3_quality a = parse_mp3_quality py_int given ->
  0 <= i ->
  encode_song joinpath resolve_str a i song =
  inl (mkInvocation
         (ffmpeg_head (rate song)
          ++ ["-c:a"; "libmp3lame"]
          ++ match given with
             | None => ["-q:a"; "1"]
             | Some s =>
                 match py_int s with
                 | Some n => ["-q:a"; str_int n]
                 | None => ["-b:a"; s]
                 end
             end
          ++ ["-metadata";
              String.append "title="
                (String.append (title_prefix a) (song_name a i song))]
          ++ metadata_str "artist" (artist a)
          ++ metadata_str "album" (album a)
          ++ metadata_str "date" (year a)
          ++ ["-metadata"; String.append "track=" (str_int (i + 1))]
          ++ metadata_str "comment" (comment a)
          ++ [resolve_str (joinpath (output_dir a) (output_name a i song))])
         (payload song)).
Proof.
  intros Hf Hq Hi. unfold encode_song. rewrite Hf. cbn [String.eqb].
  change (Ascii.eqb _ _) with true. cbv iota.
  unfold write_pcm_to_mp3. rewrite Hq.
  assert (Ht : truthy_int (Some (i + 1)) = true).
  { unfold truthy_int. apply negb_true_iff, Z.eqb_neq. lia. }
  rewrite Ht, title_metadata.
  unfold parse_mp3_quality, try_int_coerce.
  destruct given as [s|]; [destruct (py_int s) as [n|]|];
    unfold write_pcm_to_file, ffmpeg_head; cbn [app];
    repeat rewrite <- app_assoc; reflexivity.
Qed.

End DriverMp3.

Lemma one_process_per_song_witness :
  let runs :=
    fst (encode_songs sample_joinpath sample_resolve sample_arguments 0
           [mkSongInfo 7 98 45 (Some 11025) (Some hello) (-1);
            mkSongInfo 8 143 40 None None (-1)]) in
  @None driver_exn = None /\
  exists out,
    res (get_music_data SameFile (open container_v2)) = Ok out /\
    length runs = length out /\
    forall k s,
      nth_error out k = Some s ->
      exists r,
        nth_error runs k = Some r /\
        stdin r = payload s /\
        firstn 10 (argv r) = ffmpeg_head (rate s) /\
        last (argv r) ""
        = sample_resolve
            (sample_joinpath (output_dir sample_arguments)
                             (output_name sample_arguments (Z.of_nat k) s)) /\
        (payload s = None -> rate s = None ->
         stdin r = None /\ nth_error (argv r) 7 = Some "None").
Proof.
  refine (one_process_per_song
            string sample_joinpath sample_resolve sample_arguments
            container_v2 _ None _ _).
  - discriminate.
  - vm_compute. reflexivity.
Defined.

Lemma mp3_arguments_witness :
  encode_song sample_joinpath sample_resolve sample_arguments_mp3 0
              (mkSongInfo 7 98 45 (Some 11025) (Some hello) (-1))
  = inl (mkInvocation
           ["ffmpeg"; "-hide_banner"; "-loglevel"; "error";
            "-f"; "u8"; "-ar"; "11025"; "-i"; "pipe:";
            "-c:a"; "libmp3lame"; "-b:a"; "320k";
            "-metadata"; "title=1";
            "-metadata"; "artist=Composer";
            "-metadata"; "track=1";
            "out/Song1.mp3"]
           (Some hello)).
Proof.
  refine (mp3_arguments string sample_joinpath sample_resolve
                        (fun _ => None) sample_arguments_mp3 0
                        (mkSongInfo 7 98 45 (Some 11025) (Some hello) (-1))
                        (Some "320k") _ _ _).
  - reflexivity.
  - reflexivity.
  - lia.
Defined.

(* ================================================================== *)
(** ** Instances for the inline code block *)

Lemma inline_code_skipped_same_file_witness :
  res (song_body SameFile (new_SongInfo 7 77 55) (mkFile container_sbng 0))
  = match res (song_body SameFile (new_SongInfo 7 77 55)
                         (mkFile container_plain 9)) with
    | Ok s' => Ok (set_sbng_code_offset s' 40)
    | Raise e => Raise e
    end.
Proof.
  refine (inline_code_skipped_same_file
            (new_SongInfo 7 77 55) container_sbng container_plain 0 9
            _ _ _ _ _ _ _ _).
  - cbn. lia.
  - reflexivity.
  - reflexivity.
  - reflexivity.
  - reflexivity.
  - reflexivity.
  - reflexivity.
  - reflexivity.
Defined.

Lemma inline_code_block_unbound_witness :
  res (song_body Unbound (new_SongInfo 7 77 55) (open container_sbng))
  = Raise NameError.
Proof.
  refine (inline_code_block_unbound
            (new_SongInfo 7 77 55) (open container_sbng) _ _ _ _).
  - cbn. lia.
  - reflexivity.
  - reflexivity.
  - vm_compute. discriminate.
Defined.

Lemma fields_are_u32_witness :
  Forall (fun s => u32 (id s) /\ u32 (offset s) /\ u32 (size s))
         [new_SongInfo 7 98 45; new_SongInfo 8 143 40] /\
  Forall (fun s => u32 (id s) /\ u32 (offset s) /\ u32 (size s) /\
                   forall r, rate s = Some r -> u32 r)
         [mkSongInfo 7 98 45 (Some 11025) (Some hello) (-1);
          mkSongInfo 8 143 40 None None (-1)].
Proof.
  split.
  - refine (proj1 (fields_are_u32 Unbound (open container_v2)) _ _).
    vm_compute. reflexivity.
  - refine (proj2 (fields_are_u32 Unbound (open container_v2)) _ _).
    vm_compute. reflexivity.
Defined.
